(** * Purchases: the pandas aggregation queries of [purchases.py]

    The script loads [purchases.csv] into a DataFrame and evaluates seven
    independent query expressions over it.  This development embeds them
    twice:

    - a value layer ([Module Pandas], [Module Purchases]): frames are lists
      of rows, and every pandas method the script calls is a function on
      them, so that a query is the composition the source writes as a
      method chain;
    - an object layer ([Module Objects], [Module Script]): a heap of pandas
      objects on which a method call allocates its result, item assignment
      overwrites an object in place, a GroupBy object refers to the frame
      it was made from, [assign] copies the frame and assigns the new
      column to the copy in place, and the callbacks given to [apply] are
      run on freshly allocated sub-frames.
      [ScriptFacts.run_query_spec] links the two layers.

    Modelling conventions (pandas 2 with its default arguments, as the
    script calls it):
    - [groupby] is called with [sort=True] and [dropna=True]: group keys
      come out in increasing order, rows whose key is missing are in no
      group;
    - the callback of a group-wise [apply] receives the rows of the group
      with all their columns, the group key included;
    - a group-wise [apply] over zero groups returns an empty frame that has
      the columns of the grouped frame and the key as the name of its
      index; [reset_index()] on it raises [ValueError], because the key
      cannot be inserted as a column next to the column of that name.  The
      four queries that end in [.apply(...).reset_index()] therefore raise
      when no row with a country reaches their last [groupby];
    - numeric cells are exact rationals ([Q]); NaN only arises as the median
      of an empty column and as the transform value of a row without key,
      and is [None].  The code adds floating-point numbers, which round:
      the statements below never reorder or reassociate a sum, and compare
      it only with the same numbers added in the same order;
    - row labels of the purchases frame are positional (the RangeIndex that
      [read_csv] creates), so index alignment is position-wise. *)

From Stdlib Require Import List String Ascii Bool Arith Lia.
From Stdlib Require Import QArith Qminmax Lqa.
From Stdlib Require Import Permutation Sorted OrderedTypeEx.
Import ListNotations.

Open Scope Q_scope.

(* ================================================================== *)
(** ** Data model *)

(** One row of a frame: the three columns of [purchases.csv], and the
    columns added later by [assign] ([unit] when there is none). *)
Record row (X : Type) : Type := mkRow {
  country : option string;
  amount : Q;
  discount : Q;
  added : X
}.
Arguments mkRow {X} _ _ _ _.
Arguments country {X} _.
Arguments amount {X} _.
Arguments discount {X} _.
Arguments added {X} _.

Definition frame (X : Type) : Type := list (row X).

(** The table read from [purchases.csv]. *)
Definition DataFrame : Type := frame unit.

(** Column labels: a name, or the position pandas uses for an unnamed
    series turned into a column. *)
Inductive label : Type :=
| Named (s : string)
| Unnamed (n : nat).

(** A series indexed by the group key ([groupby(...)[col].sum()],
    [groupby(...).apply(scalar function)]). *)
Record KeyedSeries : Type := mkSeries {
  s_index : string;
  s_name : option string;
  s_items : list (string * Q)
}.

(** A one-column frame indexed by the group key ([groupby(...).agg]). *)
Record KeyedFrame : Type := mkKeyed {
  kf_index : string;
  kf_column : string;
  kf_items : list (string * Q)
}.

(** A two-column result table with positional index ([reset_index()]). *)
Record Table : Type := mkTable {
  t_columns : label * label;
  t_records : list (string * Q)
}.

(** What a query expression does: it returns a value or raises. *)
Inductive error : Type :=
| ValueError (msg : string)
| KeyError (key : string)
| TypeError.

Inductive outcome (A : Type) : Type :=
| Returned (a : A)
| Raised (e : error).
Arguments Returned {A} _.
Arguments Raised {A} _.

Definition outcome_map {A B} (f : A -> B) (o : outcome A) : outcome B :=
  match o with
  | Returned a => Returned (f a)
  | Raised e => Raised e
  end.

Definition label_eqb (a b : label) : bool :=
  match a, b with
  | Named s, Named s' => String.eqb s s'
  | Unnamed n, Unnamed n' => Nat.eqb n n'
  | _, _ => false
  end.

(* ================================================================== *)
(** ** The pandas operations used by the script *)

Module Pandas.

Section Frames.
Context {X : Type}.

(** [df["amount"]], [df["discount"]] *)
Definition getitem_amount (df : frame X) : list Q := map amount df.
Definition getitem_discount (df : frame X) : list Q := map discount df.

(** [df[mask]]: boolean indexing, position-wise. *)
Definition getitem_mask (df : frame X) (mask : list bool) : frame X :=
  map fst (filter snd (combine df mask)).

(** Rows whose group key is [k]. *)
Definition in_group (k : string) (r : row X) : bool :=
  match country r with
  | Some c => String.eqb c k
  | None => false
  end.

(** Rows with a group key at all ([dropna]). *)
Definition has_key (r : row X) : bool :=
  match country r with
  | Some _ => true
  | None => false
  end.

Definition dropna (df : frame X) : frame X := filter has_key df.
End Frames.

(** [Series.sum()]: the values added up from the first to the last,
    starting from 0.  The additions are exact here; in the code they are
    float64 additions, which round (or int64 additions, which wrap around),
    so a statement about a sum is not to rely on reordering or regrouping
    the additions. *)
Definition sum (s : list Q) : Q := fold_left Qplus s 0.

(** [a - b] on two series, position-wise. *)
Definition sub (a b : list Q) : list Q :=
  map (fun p => fst p - snd p) (combine a b).

(** [Series.sort_values()], as used by the median. *)
Fixpoint insert_sorted (x : Q) (l : list Q) : list Q :=
  match l with
  | [] => [x]
  | y :: t => if Qle_bool x y then x :: l else y :: insert_sorted x t
  end.

Definition sort_values (s : list Q) : list Q := fold_right insert_sorted [] s.

(** [Series.median()]: the middle value, or the mean of the two middle
    values; NaN on an empty series. *)
Definition median (s : list Q) : option Q :=
  let v := sort_values s in
  let n := List.length v in
  match n with
  | O => None
  | _ =>
      if Nat.odd n then Some (nth (n / 2)%nat v 0)
      else Some ((nth (n / 2 - 1)%nat v 0 + nth (n / 2)%nat v 0) / 2)
  end.

(** [x * 10] on a float scalar (NaN stays NaN). *)
Definition mul_scalar (x : option Q) (n : Q) : option Q :=
  option_map (fun q => q * n) x.

(** [a <= x]: a comparison with NaN is false. *)
Definition le_scalar (a : Q) (x : option Q) : bool :=
  match x with
  | Some t => Qle_bool a t
  | None => false
  end.

(** [column <= scalar], broadcast. *)
Definition le_broadcast (col : list Q) (x : option Q) : list bool :=
  map (fun a => le_scalar a x) col.

(** [column * 10] and [column <= column], position-wise. *)
Definition mul_column (col : list (option Q)) (n : Q) : list (option Q) :=
  map (fun x => mul_scalar x n) col.

Definition le_columns (a : list Q) (b : list (option Q)) : list bool :=
  map (fun p => le_scalar (fst p) (snd p)) (combine a b).

(** *** groupby *)

(** Insertion of a key into the increasing list of distinct keys. *)
Fixpoint insert_key (k : string) (ks : list string) : list string :=
  match ks with
  | [] => [k]
  | k' :: rest =>
      match String.compare k k' with
      | Lt => k :: ks
      | Eq => ks
      | Gt => k' :: insert_key k rest
      end
  end.

(** What [groupby(...).apply(f)] returns for a scalar-valued [f]. *)
Inductive applied : Type :=
| AppliedSeries (s : KeyedSeries)
| AppliedEmpty.

Section GroupBy.
Context {X : Type}.

(** The distinct keys of the frame, increasing; missing keys dropped. *)
Definition group_keys (df : frame X) : list string :=
  fold_right
    (fun r ks => match country r with
                 | Some c => insert_key c ks
                 | None => ks
                 end)
    [] df.

(** [df.groupby("country")]: each key with its rows, in frame order. *)
Definition groupby (df : frame X) : list (string * frame X) :=
  map (fun k => (k, filter (in_group k) df)) (group_keys df).

(** [groupby("country")["amount"].sum()] *)
Definition groupby_amount_sum (df : frame X) : KeyedSeries :=
  mkSeries "country" (Some "amount"%string)
    (map (fun kg => (fst kg, sum (getitem_amount (snd kg)))) (groupby df)).

(** [groupby("country").agg(out=("amount", "sum"))] *)
Definition groupby_agg_amount_sum (out : string) (df : frame X) : KeyedFrame :=
  mkKeyed "country" out
    (map (fun kg => (fst kg, sum (getitem_amount (snd kg)))) (groupby df)).

(** [groupby("country").apply(f)] for a scalar-valued [f]: an unnamed
    series indexed by the key.  With no group there is no value to tell
    what [f] returns, and pandas gives an empty frame that has the columns
    of the grouped frame, the key among them, and the key as the name of
    its index. *)
Definition groupby_apply (f : frame X -> Q) (df : frame X) : applied :=
  match groupby df with
  | [] => AppliedEmpty
  | gs => AppliedSeries
            (mkSeries "country" None (map (fun kg => (fst kg, f (snd kg))) gs))
  end.

(** [groupby("country").apply(f)] for a frame-valued [f]: the results
    one after the other, in key order. *)
Definition groupby_apply_frame (f : frame X -> frame X) (df : frame X) : frame X :=
  List.concat (map (fun kg => f (snd kg)) (groupby df)).

(** The group of key [k], as [transform] looks it up. *)
Fixpoint get_group (k : string) (gs : list (string * frame X)) : option (frame X) :=
  match gs with
  | [] => None
  | (k', g) :: rest => if String.eqb k' k then Some g else get_group k rest
  end.

(** [groupby("country")["amount"].transform("median")]: for every row
    the median of its group; NaN for a row without key. *)
Definition groupby_amount_transform_median (df : frame X) : list (option Q) :=
  map (fun r => match country r with
                | Some c =>
                    match get_group c (groupby df) with
                    | Some g => median (getitem_amount g)
                    | None => None
                    end
                | None => None
                end) df.

(** [reset_index(drop=True)]: the rows keep their order, the index is
    renumbered. *)
Definition reset_index_drop (df : frame X) : frame X := df.
End GroupBy.

(** [df.assign(country_median=s)] *)
Definition assign_country_median {X} (df : frame X) (s : list (option Q))
  : frame (option Q) :=
  map (fun p => mkRow (country (fst p)) (amount (fst p)) (discount (fst p)) (snd p))
      (combine df s).

(** [reset_index()] on a keyed series and on a keyed frame: the key becomes
    the first column. *)
Definition series_reset_index (s : KeyedSeries) : Table :=
  mkTable (Named (s_index s),
           match s_name s with Some n => Named n | None => Unnamed 0 end)
          (s_items s).

(** [reset_index()] on the result of [apply]: on the empty frame the key
    is already a column, and inserting it again is refused. *)
Definition cannot_insert_country : error :=
  ValueError "cannot insert country, already exists".

Definition applied_reset_index (a : applied) : outcome Table :=
  match a with
  | AppliedSeries s => Returned (series_reset_index s)
  | AppliedEmpty => Raised cannot_insert_country
  end.

Definition frame_reset_index (f : KeyedFrame) : Table :=
  mkTable (Named (kf_index f), Named (kf_column f)) (kf_items f).

(** [rename(columns={old: new})] *)
Definition rename_columns (old : label) (new : string) (t : Table) : Table :=
  let rn := fun l => if label_eqb l old then Named new else l in
  mkTable (rn (fst (t_columns t)), rn (snd (t_columns t))) (t_records t).

(** *** Auxiliary notions for the proofs *)

(** Dropping the added columns of a row. *)
Definition forget {X} (r : row X) : row unit :=
  mkRow (country r) (amount r) (discount r) tt.

(** The rows of a frame whose key is in [ks], group after group. *)
Definition regroup {X} (ks : list string) (df : frame X) : frame X :=
  List.concat (map (fun k => filter (in_group k) df) ks).

(** A row is covered by [ks] when its key is one of them. *)
Definition covered {X} (ks : list string) (r : row X) : bool :=
  existsb (fun k => in_group k r) ks.

End Pandas.

(* ================================================================== *)
(** ** The query expressions of [purchases.py], on values *)

Module Purchases.
Import Pandas.

(** Line 7: [purchases["amount"].sum()] *)
Definition total_amount (purchases : DataFrame) : Q :=
  sum (getitem_amount purchases).

(** Lines 10-13: [purchases.groupby("country")["amount"].sum()] *)
Definition amount_by_country (purchases : DataFrame) : KeyedSeries :=
  groupby_amount_sum purchases.

(** Lines 15-19:
    [purchases.groupby("country").agg(total=("amount", "sum")).reset_index()] *)
Definition total_by_country (purchases : DataFrame) : Table :=
  frame_reset_index (groupby_agg_amount_sum "total" purchases).

(** The callback [lambda df: (df["amount"] - df["discount"]).sum()] of
    lines 24, 33, 44 and 56. *)
Definition net_sum {X} (df : frame X) : Q :=
  sum (sub (getitem_amount df) (getitem_discount df)).

(** The tail shared by lines 22-27, 30-36, 39-47 and 50-59:
    [.groupby("country").apply(net_sum).reset_index().rename(columns={0: "total"})] *)
Definition net_by_country {X} (df : frame X) : outcome Table :=
  outcome_map (rename_columns (Unnamed 0) "total")
    (applied_reset_index (groupby_apply net_sum df)).

(** Lines 22-27. *)
Definition net_total_by_country (purchases : DataFrame) : outcome Table :=
  net_by_country purchases.

(** Line 31: [.query("amount <= amount.median() * 10")] *)
Definition query_amount_le_median {X} (df : frame X) : frame X :=
  getitem_mask df
    (le_broadcast (getitem_amount df)
                  (mul_scalar (median (getitem_amount df)) 10)).

(** Lines 30-36. *)
Definition net_without_outliers (purchases : DataFrame) : outcome Table :=
  net_by_country (query_amount_le_median purchases).

(** Line 41: the callback
    [lambda df: df[df["amount"] <= df["amount"].median() * 10]] *)
Definition within_median {X} (df : frame X) : frame X :=
  getitem_mask df
    (le_broadcast (getitem_amount df)
                  (mul_scalar (median (getitem_amount df)) 10)).

(** Lines 39-42: the rows the nested-apply query keeps. *)
Definition nested_apply_rows (purchases : DataFrame) : DataFrame :=
  reset_index_drop (groupby_apply_frame within_median purchases).

(** Lines 39-47. *)
Definition net_without_country_outliers (purchases : DataFrame) : outcome Table :=
  net_by_country (nested_apply_rows purchases).

(** Line 54: [.query("amount <= country_median * 10")] *)
Definition query_amount_le_country_median (df : frame (option Q))
  : frame (option Q) :=
  getitem_mask df
    (le_columns (getitem_amount df) (mul_column (map added df) 10)).

(** Lines 50-54: the rows the assign-then-query version keeps. *)
Definition assign_query_rows (purchases : DataFrame) : frame (option Q) :=
  query_amount_le_country_median
    (assign_country_median purchases
       (groupby_amount_transform_median purchases)).

(** Lines 50-59. *)
Definition net_without_country_outliers_assign (purchases : DataFrame) : outcome Table :=
  net_by_country (assign_query_rows purchases).

(** The records a query displays; a query that raises displays none.  A
    table that a query returns always has a record. *)
Definition records (o : outcome Table) : list (string * Q) :=
  match o with
  | Returned t => t_records t
  | Raised _ => []
  end.

(** The threshold of a row's group, as the two per-country queries compute
    it. *)
Definition group_threshold {X} (df : frame X) (c : option string) : option Q :=
  match c with
  | Some k => mul_scalar (median (getitem_amount (filter (in_group k) df))) 10
  | None => None
  end.

Definition within_country_median {X} (df : frame X) (r : row X) : bool :=
  le_scalar (amount r) (group_threshold df (country r)).

(** The two-row fixture of the specification. *)
Definition fixture : DataFrame :=
  [ mkRow (Some "US"%string) 100 10 tt; mkRow (Some "US"%string) 50 5 tt ].

(** A table with one row whose country is missing. *)
Definition missing_country_fixture : DataFrame := [ mkRow None 5 0 tt ].

(** A table on which one pass of the global filter is not enough: the
    first pass drops 1501, which lowers the median from 15 to 8 and puts
    150 above the new threshold. *)
Definition two_pass_fixture : DataFrame :=
  [ mkRow (Some "US"%string) 1 0 tt; mkRow (Some "US"%string) 1 0 tt;
    mkRow (Some "US"%string) 15 0 tt; mkRow (Some "US"%string) 150 0 tt;
    mkRow (Some "US"%string) 1501 0 tt ].

(** Three small sales in SE and one large sale in US. *)
Definition global_median_fixture : DataFrame :=
  [ mkRow (Some "SE"%string) 1 0 tt; mkRow (Some "SE"%string) 1 0 tt;
    mkRow (Some "SE"%string) 1 0 tt; mkRow (Some "US"%string) 100 0 tt ].

End Purchases.

(* ================================================================== *)
(** ** The per-country plan of the specification *)

Module Spec.
Import Pandas.

(** The rows of country [c]. *)
Definition rows_of (c : string) (t : DataFrame) : DataFrame :=
  filter (fun r => match country r with
                   | Some c' => String.eqb c' c
                   | None => false
                   end) t.

(** Step 1: per country, the median of [amount]. *)
Definition country_median (t : DataFrame) (c : string) : option Q :=
  median (map amount (rows_of c t)).

(** Step 2: a row is kept when its amount is at most 10 times the median
    of its own country. *)
Definition keeps (t : DataFrame) (r : row unit) : bool :=
  match country r with
  | Some c =>
      match country_median t c with
      | Some m => Qle_bool (amount r) (10 * m)
      | None => false
      end
  | None => false
  end.

Definition kept (t : DataFrame) : DataFrame := filter (keeps t) t.

(** The global variant: the threshold is 10 times the median of [amount]
    over the whole table. *)
Definition keeps_global (t : DataFrame) (r : row unit) : bool :=
  match median (map amount t) with
  | Some m => Qle_bool (amount r) (10 * m)
  | None => false
  end.

End Spec.

(* ================================================================== *)
(** ** The plan in plain terms, without the pandas operations *)

Module Reference.

(** The number of values of [s] smaller than [x], and the number of values
    at most [x]. *)
Definition below (x : Q) (s : list Q) : nat :=
  List.length (filter (fun y => negb (Qle_bool x y)) s).

Definition upto (x : Q) (s : list Q) : nat :=
  List.length (filter (fun y => Qle_bool y x) s).

(** [x] is at place [k] (from 0) when the values are put in increasing
    order: at most [k] values are smaller, more than [k] are at most [x]. *)
Definition has_rank (s : list Q) (k : nat) (x : Q) : bool :=
  Nat.leb (below x s) k && Nat.ltb k (upto x s).

Definition select (s : list Q) (k : nat) : option Q := find (has_rank s k) s.

(** The median: the middle value in increasing order, or the mean of the
    two middle values; none for no value. *)
Definition median (s : list Q) : option Q :=
  let n := List.length s in
  if Nat.odd n then select s (n / 2)%nat
  else match select s (n / 2 - 1)%nat, select s (n / 2)%nat with
       | Some a, Some b => Some ((a + b) / 2)
       | _, _ => None
       end.

(** The sum of a list of numbers. *)
Fixpoint add_up (acc : Q) (l : list Q) : Q :=
  match l with
  | [] => acc
  | x :: l' => add_up (acc + x) l'
  end.

Definition total (l : list Q) : Q := add_up 0 l.

(** The rows of country [c]. *)
Definition rows_of (c : string) (t : DataFrame) : DataFrame :=
  filter (fun r => match country r with
                   | Some c' => String.eqb c' c
                   | None => false
                   end) t.

(** Step 1: per country, the median of [amount]. *)
Definition country_median (t : DataFrame) (c : string) : option Q :=
  median (map amount (rows_of c t)).

(** Step 2: the rows whose amount is at most 10 times the median of their
    own country. *)
Definition keeps (t : DataFrame) (r : row unit) : bool :=
  match country r with
  | Some c =>
      match country_median t c with
      | Some m => Qle_bool (amount r) (10 * m)
      | None => false
      end
  | None => false
  end.

Definition kept (t : DataFrame) : DataFrame := filter (keeps t) t.


(** The global variant of step 2: the threshold is 10 times the median of
    [amount] over the whole table. *)
Definition keeps_global (t : DataFrame) (r : row unit) : bool :=
  match median (map amount t) with
  | Some m => Qle_bool (amount r) (10 * m)
  | None => false
  end.



End Reference.
(* ================================================================== *)
(** ** pandas objects on a heap *)

Module Objects.
Import Pandas.

Definition loc : Type := nat.

Inductive obj : Type :=
| ODataFrame (df : frame unit)          (* a frame with the csv columns *)
| OAssigned (df : frame (option Q))     (* ... and the column country_median *)
| OGroupBy (src : loc)                  (* groupby("country") of the frame at src *)
| OSeriesGroupBy (src : loc)            (* its selection ["amount"] *)
| OColumn (s : list Q)                  (* a numeric column *)
| ONaColumn (s : list (option Q))       (* a numeric column that may hold NaN *)
| OMask (m : list bool)                 (* a boolean column *)
| ONumber (q : Q)                       (* a number *)
| OFloat (x : option Q)                 (* a float scalar, possibly NaN *)
| OKeyedSeries (s : KeyedSeries)
| OKeyedFrame (f : KeyedFrame)
| OEmptyApplied                         (* what apply gives over zero groups *)
| OTable (t : Table).

Definition heap : Type := list obj.

(** Computations on the heap; an exception leaves the heap as it is when
    it is raised. *)
Definition Py (A : Type) : Type := heap -> heap * outcome A.

Definition ret {A} (a : A) : Py A := fun h => (h, Returned a).

Definition bind {A B} (m : Py A) (k : A -> Py B) : Py B :=
  fun h => match m h with
           | (h', Returned a) => k a h'
           | (h', Raised e) => (h', Raised e)
           end.

Definition raise {A} (e : error) : Py A := fun h => (h, Raised e).

Notation "x <- m ;; k" := (bind m (fun x => k))
  (at level 61, m at next level, right associativity).

(** A method call that returns a new object. *)
Definition alloc (o : obj) : Py loc :=
  fun h => (h ++ [o], Returned (List.length h)).

Definition load (l : loc) : Py obj :=
  fun h => match nth_error h l with
           | Some o => (h, Returned o)
           | None => (h, Raised TypeError)
           end.

(** An operation that changes an object in place. *)
Fixpoint update (h : heap) (l : loc) (o : obj) : heap :=
  match h, l with
  | [], _ => []
  | _ :: rest, O => o :: rest
  | x :: rest, S l' => x :: update rest l' o
  end.

Definition store (l : loc) (o : obj) : Py unit :=
  fun h => match nth_error h l with
           | Some _ => (update h l o, Returned tt)
           | None => (h, Raised TypeError)
           end.

Definition same_length {A B} (a : list A) (b : list B) : bool :=
  Nat.eqb (List.length a) (List.length b).

(** [pd.read_csv(...)] *)
Definition read_csv (csv : DataFrame) : Py loc := alloc (ODataFrame csv).

(** [df.head()] *)
Definition head (l : loc) : Py loc :=
  o <- load l ;;
  match o with
  | ODataFrame df => alloc (ODataFrame (firstn 5 df))
  | OAssigned df => alloc (OAssigned (firstn 5 df))
  | _ => raise TypeError
  end.

(** [x[key]] with a column name. *)
Definition getitem (l : loc) (key : string) : Py loc :=
  o <- load l ;;
  match o with
  | ODataFrame df =>
      if String.eqb key "amount" then alloc (OColumn (getitem_amount df))
      else if String.eqb key "discount" then alloc (OColumn (getitem_discount df))
      else raise (KeyError key)
  | OAssigned df =>
      if String.eqb key "amount" then alloc (OColumn (getitem_amount df))
      else if String.eqb key "discount" then alloc (OColumn (getitem_discount df))
      else if String.eqb key "country_median" then alloc (ONaColumn (map added df))
      else raise (KeyError key)
  | OGroupBy src =>
      if String.eqb key "amount" then alloc (OSeriesGroupBy src)
      else raise (KeyError key)
  | _ => raise TypeError
  end.

(** [df[mask]] *)
Definition getitem_bool (l mask : loc) : Py loc :=
  o <- load l ;;
  m <- load mask ;;
  match o, m with
  | ODataFrame df, OMask b =>
      if same_length df b then alloc (ODataFrame (getitem_mask df b))
      else raise (ValueError "Item wrong length")
  | OAssigned df, OMask b =>
      if same_length df b then alloc (OAssigned (getitem_mask df b))
      else raise (ValueError "Item wrong length")
  | _, _ => raise TypeError
  end.

(** [df["country_median"] = column]: item assignment changes the frame
    itself.  The script never does this; it calls [assign], which returns
    a new frame. *)
Definition setitem_country_median (l c : loc) : Py unit :=
  o <- load l ;;
  s <- load c ;;
  match o, s with
  | ODataFrame df, ONaColumn v =>
      if same_length df v
      then store l (OAssigned (Pandas.assign_country_median df v))
      else raise (ValueError "Length of values does not match length of index")
  | OAssigned df, ONaColumn v =>
      if same_length df v
      then store l (OAssigned (Pandas.assign_country_median df v))
      else raise (ValueError "Length of values does not match length of index")
  | _, _ => raise TypeError
  end.

(** [a - b] *)
Definition sub (a b : loc) : Py loc :=
  x <- load a ;;
  y <- load b ;;
  match x, y with
  | OColumn s, OColumn s' =>
      if same_length s s' then alloc (OColumn (Pandas.sub s s'))
      else raise (ValueError "Lengths must match")
  | _, _ => raise TypeError
  end.

(** [x * n] *)
Definition mul (l : loc) (n : Q) : Py loc :=
  o <- load l ;;
  match o with
  | OFloat x => alloc (OFloat (mul_scalar x n))
  | ONaColumn s => alloc (ONaColumn (mul_column s n))
  | _ => raise TypeError
  end.

(** [a <= b] *)
Definition le (a b : loc) : Py loc :=
  x <- load a ;;
  y <- load b ;;
  match x, y with
  | OColumn s, OFloat t => alloc (OMask (le_broadcast s t))
  | OColumn s, ONaColumn s' =>
      if same_length s s' then alloc (OMask (le_columns s s'))
      else raise (ValueError "Lengths must match")
  | _, _ => raise TypeError
  end.

(** [x.median()] *)
Definition median (l : loc) : Py loc :=
  o <- load l ;;
  match o with
  | OColumn s => alloc (OFloat (Pandas.median s))
  | _ => raise TypeError
  end.

(** [df.groupby(key)]: the GroupBy object keeps a reference to [df]. *)
Definition groupby (l : loc) (key : string) : Py loc :=
  o <- load l ;;
  match o with
  | ODataFrame _ | OAssigned _ =>
      if String.eqb key "country" then alloc (OGroupBy l)
      else raise (KeyError key)
  | _ => raise TypeError
  end.

(** [x.sum()] on a column and on a grouped column. *)
Definition sum (l : loc) : Py loc :=
  o <- load l ;;
  match o with
  | OColumn s => alloc (ONumber (Pandas.sum s))
  | OSeriesGroupBy src =>
      f <- load src ;;
      match f with
      | ODataFrame df => alloc (OKeyedSeries (groupby_amount_sum df))
      | OAssigned df => alloc (OKeyedSeries (groupby_amount_sum df))
      | _ => raise TypeError
      end
  | _ => raise TypeError
  end.

(** [g.agg(out=(col, func))] *)
Definition agg (l : loc) (out col func : string) : Py loc :=
  o <- load l ;;
  match o with
  | OGroupBy src =>
      if String.eqb col "amount" && String.eqb func "sum" then
        f <- load src ;;
        match f with
        | ODataFrame df => alloc (OKeyedFrame (groupby_agg_amount_sum out df))
        | OAssigned df => alloc (OKeyedFrame (groupby_agg_amount_sum out df))
        | _ => raise TypeError
        end
      else raise (KeyError col)
  | _ => raise TypeError
  end.

(** [g.transform(func)] on a grouped column. *)
Definition transform (l : loc) (func : string) : Py loc :=
  o <- load l ;;
  match o with
  | OSeriesGroupBy src =>
      if String.eqb func "median" then
        f <- load src ;;
        match f with
        | ODataFrame df => alloc (ONaColumn (groupby_amount_transform_median df))
        | OAssigned df => alloc (ONaColumn (groupby_amount_transform_median df))
        | _ => raise TypeError
        end
      else raise (ValueError func)
  | _ => raise TypeError
  end.

(** The groups of a frame object, each as a frame object of its own. *)
Definition groups_of (o : obj) : option (list (string * obj)) :=
  match o with
  | ODataFrame df =>
      Some (map (fun kg => (fst kg, ODataFrame (snd kg))) (Pandas.groupby df))
  | OAssigned df =>
      Some (map (fun kg => (fst kg, OAssigned (snd kg))) (Pandas.groupby df))
  | _ => None
  end.

(** The callback of [apply], run on every group in key order. *)
Fixpoint apply_each (f : loc -> Py loc) (gs : list (string * obj))
  : Py (list (string * obj)) :=
  match gs with
  | [] => ret []
  | (k, g) :: rest =>
      l <- alloc g ;;
      r <- f l ;;
      o <- load r ;;
      os <- apply_each f rest ;;
      ret ((k, o) :: os)
  end.

Fixpoint as_numbers (os : list (string * obj)) : option (list (string * Q)) :=
  match os with
  | [] => Some []
  | (k, ONumber q) :: rest => option_map (cons (k, q)) (as_numbers rest)
  | _ => None
  end.

Fixpoint as_frames (os : list (string * obj)) : option (list (frame unit)) :=
  match os with
  | [] => Some []
  | (_, ODataFrame df) :: rest => option_map (cons df) (as_frames rest)
  | _ => None
  end.

Definition grouped (l : loc) : Py (list (string * obj)) :=
  o <- load l ;;
  match o with
  | OGroupBy src =>
      f <- load src ;;
      match groups_of f with
      | Some gs => ret gs
      | None => raise TypeError
      end
  | _ => raise TypeError
  end.

(** What [apply] makes of the values its callback returned: numbers give
    a series indexed by the key, frames are put one after the other, and
    no value at all gives the empty frame indexed by the key. *)
Definition combine_applied (os : list (string * obj)) : option obj :=
  match os with
  | [] => Some OEmptyApplied
  | _ =>
      match as_numbers os with
      | Some items => Some (OKeyedSeries (mkSeries "country" None items))
      | None =>
          match as_frames os with
          | Some dfs => Some (ODataFrame (List.concat dfs))
          | None => None
          end
      end
  end.

(** [g.apply(f)] *)
Definition apply (l : loc) (f : loc -> Py loc) : Py loc :=
  gs <- grouped l ;;
  os <- apply_each f gs ;;
  match combine_applied os with
  | Some o => alloc o
  | None => raise TypeError
  end.

(** [x.reset_index(drop=...)] *)
Definition reset_index (l : loc) (drop : bool) : Py loc :=
  o <- load l ;;
  match o, drop with
  | OKeyedSeries s, false => alloc (OTable (series_reset_index s))
  | OKeyedFrame f, false => alloc (OTable (frame_reset_index f))
  | OEmptyApplied, false => raise cannot_insert_country
  | OEmptyApplied, true => alloc (ODataFrame [])
  | ODataFrame df, true => alloc (ODataFrame (reset_index_drop df))
  | OAssigned df, true => alloc (OAssigned (reset_index_drop df))
  | _, _ => raise TypeError
  end.

(** [t.rename(columns={old: new})] *)
Definition rename (l : loc) (old : label) (new : string) : Py loc :=
  o <- load l ;;
  match o with
  | OTable t => alloc (OTable (rename_columns old new t))
  | _ => raise TypeError
  end.

(** [df.copy()] *)
Definition copy (l : loc) : Py loc :=
  o <- load l ;;
  match o with
  | ODataFrame df => alloc (ODataFrame df)
  | OAssigned df => alloc (OAssigned df)
  | _ => raise TypeError
  end.

(** [df.assign(country_median=f)].  pandas copies the frame, calls [f] on
    the copy and assigns the column to the copy in place
    ([data = self.copy(); data[k] = f(data); return data]). *)
Definition assign_country_median (l : loc) (f : loc -> Py loc) : Py loc :=
  data <- copy l ;;
  c <- f data ;;
  _ <- setitem_country_median data c ;;
  ret data.

(** [df.query(expr)]: the rows on which the expression is true. *)
Definition query (l : loc) (expr : loc -> Py loc) : Py loc :=
  mask <- expr l ;;
  getitem_bool l mask.

(** *** Assertions on heap computations *)

(** The heap holds object [o] at [l]. *)
Definition holds (h : heap) (l : loc) (o : obj) : Prop := nth_error h l = Some o.

(** [h'] is [h] with more objects: nothing in [h] has changed.  The objects
    added may themselves have been changed after their allocation. *)
Definition extends (h h' : heap) : Prop := exists ext, h' = h ++ ext.

(** From [h], [m] changes no object of [h], whether it returns or raises,
    and ends in a heap and an outcome that satisfy [Q]. *)
Definition runs {A} (m : Py A) (h : heap)
    (Q : heap -> outcome A -> Prop) : Prop :=
  extends h (fst (m h)) /\ Q (fst (m h)) (snd (m h)).

(** From [h], [m] returns normally, changes no object of [h], and ends in
    a heap and a value that satisfy [Q]. *)
Definition returns {A} (m : Py A) (h : heap) (Q : heap -> A -> Prop) : Prop :=
  exists h' a, m h = (h', Returned a) /\ extends h h' /\ Q h' a.

(** The value is the location of a new object [o]. *)
Definition fresh (h : heap) (o : obj) : heap -> loc -> Prop :=
  fun h' l => holds h' l o /\ (List.length h <= l)%nat.

(** The outcome is the expected one: the location of a new object that
    holds the expected value, or the expected exception. *)
Definition yields (h : heap) (expected : outcome obj)
  : heap -> outcome loc -> Prop :=
  fun h' o =>
    match expected with
    | Returned v => exists r, o = Returned r /\ fresh h v h' r
    | Raised e => o = Raised e
    end.

(** Two evaluations end the same way: both return an object, and the two
    objects hold the same value, or both raise the same exception. *)
Definition same_result (a b : heap * outcome loc) : Prop :=
  match snd a, snd b with
  | Returned r, Returned r' =>
      exists v, holds (fst a) r v /\ holds (fst b) r' v
  | Raised e, Raised e' => e = e'
  | _, _ => False
  end.

(** The object that [apply] returns for a callback that gives numbers. *)
Definition applied_obj (a : applied) : obj :=
  match a with
  | AppliedSeries s => OKeyedSeries s
  | AppliedEmpty => OEmptyApplied
  end.

(** A frame object and the frame it holds. *)
Inductive is_frame : obj -> forall X, frame X -> Prop :=
| IsDataFrame df : is_frame (ODataFrame df) unit df
| IsAssigned df : is_frame (OAssigned df) (option Q) df.

End Objects.

(* ================================================================== *)
(** ** The script, statement by statement *)

Module Script.
Import Objects.

(** Line 7 *)
Definition total_amount (purchases : loc) : Py loc :=
  a <- getitem purchases "amount" ;;
  sum a.

(** Lines 10-13 *)
Definition amount_by_country (purchases : loc) : Py loc :=
  g <- groupby purchases "country" ;;
  a <- getitem g "amount" ;;
  sum a.

(** Lines 15-19 *)
Definition total_by_country (purchases : loc) : Py loc :=
  g <- groupby purchases "country" ;;
  t <- agg g "total" "amount" "sum" ;;
  reset_index t false.

(** [lambda df: (df["amount"] - df["discount"]).sum()] *)
Definition net_sum (df : loc) : Py loc :=
  a <- getitem df "amount" ;;
  d <- getitem df "discount" ;;
  s <- sub a d ;;
  sum s.

(** [.groupby("country").apply(net_sum).reset_index().rename(columns={0: "total"})] *)
Definition net_by_country (df : loc) : Py loc :=
  g <- groupby df "country" ;;
  s <- apply g net_sum ;;
  t <- reset_index s false ;;
  rename t (Unnamed 0) "total".

(** Lines 22-27 *)
Definition net_total_by_country (purchases : loc) : Py loc :=
  net_by_country purchases.

(** The expression [amount <= amount.median() * 10], in [query] (line 31)
    and written out on [df] in the callback of line 41. *)
Definition amount_le_median (df : loc) : Py loc :=
  a <- getitem df "amount" ;;
  a' <- getitem df "amount" ;;
  m <- median a' ;;
  x <- mul m 10 ;;
  le a x.

(** Lines 30-36 *)
Definition net_without_outliers (purchases : loc) : Py loc :=
  q <- query purchases amount_le_median ;;
  net_by_country q.

(** [lambda df: df[df["amount"] <= df["amount"].median() * 10]] *)
Definition within_median (df : loc) : Py loc :=
  mask <- amount_le_median df ;;
  getitem_bool df mask.

(** Lines 39-47 *)
Definition net_without_country_outliers (purchases : loc) : Py loc :=
  g <- groupby purchases "country" ;;
  f <- apply g within_median ;;
  r <- reset_index f true ;;
  net_by_country r.

(** [lambda df: df.groupby("country")["amount"].transform("median")] *)
Definition country_median (df : loc) : Py loc :=
  g <- groupby df "country" ;;
  a <- getitem g "amount" ;;
  transform a "median".

(** The expression [amount <= country_median * 10] of line 54. *)
Definition amount_le_country_median (df : loc) : Py loc :=
  a <- getitem df "amount" ;;
  c <- getitem df "country_median" ;;
  x <- mul c 10 ;;
  le a x.

(** Lines 50-59 *)
Definition net_without_country_outliers_assign (purchases : loc) : Py loc :=
  a <- assign_country_median purchases country_median ;;
  q <- query a amount_le_country_median ;;
  net_by_country q.

(** The queries of the script. *)
Inductive query_expr : Type :=
| TotalAmount
| AmountByCountry
| TotalByCountry
| NetTotalByCountry
| NetWithoutOutliers
| NetWithoutCountryOutliers
| NetWithoutCountryOutliersAssign.

Definition queries : list query_expr :=
  [ TotalAmount; AmountByCountry; TotalByCountry; NetTotalByCountry;
    NetWithoutOutliers; NetWithoutCountryOutliers;
    NetWithoutCountryOutliersAssign ].

Definition run_query (q : query_expr) : loc -> Py loc :=
  match q with
  | TotalAmount => total_amount
  | AmountByCountry => amount_by_country
  | TotalByCountry => total_by_country
  | NetTotalByCountry => net_total_by_country
  | NetWithoutOutliers => net_without_outliers
  | NetWithoutCountryOutliers => net_without_country_outliers
  | NetWithoutCountryOutliersAssign => net_without_country_outliers_assign
  end.

(** What a query does, on values: the object it displays, or the
    exception it raises. *)
Definition outcome_of (q : query_expr) (purchases : DataFrame) : outcome obj :=
  match q with
  | TotalAmount => Returned (ONumber (Purchases.total_amount purchases))
  | AmountByCountry =>
      Returned (OKeyedSeries (Purchases.amount_by_country purchases))
  | TotalByCountry => Returned (OTable (Purchases.total_by_country purchases))
  | NetTotalByCountry =>
      outcome_map OTable (Purchases.net_total_by_country purchases)
  | NetWithoutOutliers =>
      outcome_map OTable (Purchases.net_without_outliers purchases)
  | NetWithoutCountryOutliers =>
      outcome_map OTable (Purchases.net_without_country_outliers purchases)
  | NetWithoutCountryOutliersAssign =>
      outcome_map OTable
        (Purchases.net_without_country_outliers_assign purchases)
  end.

(** The whole script: load the table, show its head, evaluate the queries
    one after the other.  It returns the table and the displayed results. *)
Fixpoint run_queries (qs : list query_expr) (purchases : loc) : Py (list loc) :=
  match qs with
  | [] => ret []
  | q :: rest =>
      r <- run_query q purchases ;;
      rs <- run_queries rest purchases ;;
      ret (r :: rs)
  end.

Definition main (csv : DataFrame) : Py (loc * list loc) :=
  purchases <- read_csv csv ;;
  _ <- head purchases ;;
  rs <- run_queries queries purchases ;;
  ret (purchases, rs).

(** The heap after lines 3 and 4, when the script starts from an empty
    one: the table and its head. *)
Definition loaded (csv : DataFrame) : heap :=
  [ODataFrame csv; ODataFrame (firstn 5 csv)].

(** Not in the script: the in-place counterpart of lines 51-53,
    [purchases["country_median"] = purchases.groupby("country")["amount"].transform("median")],
    which the script avoids by calling [assign]. *)
Definition set_country_median_in_place (purchases : loc) : Py unit :=
  c <- country_median purchases ;;
  setitem_country_median purchases c.

End Script.

(* ================================================================== *)
(** ** Facts about the pandas operations *)

Module PandasFacts.
Import Pandas.

Abbreviation key_lt := String_as_OT.lt.

(** *** Boolean indexing and column arithmetic *)

Lemma getitem_mask_map {X} (p : row X -> bool) (df : frame X) :
  getitem_mask df (map p df) = filter p df.
Proof.
  unfold getitem_mask.
  induction df as [|r df IH]; simpl; [reflexivity|].
  destruct (p r); simpl; now rewrite IH.
Qed.

Lemma le_broadcast_amount {X} (df : frame X) (x : option Q) :
  le_broadcast (getitem_amount df) x = map (fun r => le_scalar (amount r) x) df.
Proof. unfold le_broadcast, getitem_amount. now rewrite map_map. Qed.


Lemma median_nonempty (s : list Q) :
  s <> [] -> exists m, median s = Some m.
Proof.
  intros Hs. unfold median.
  assert (Hlen : forall x l, List.length (insert_sorted x l) = S (List.length l)).
  { intros x l. induction l as [|y l IH]; simpl; [reflexivity|].
    destruct (Qle_bool x y); simpl; [reflexivity | now rewrite IH]. }
  destruct s as [|a s]; [contradiction|].
  simpl sort_values. rewrite Hlen.
  destruct (Nat.odd (S (List.length (sort_values s)))); eauto.
Qed.

(** *** The sorted list of keys *)

Lemma compare_lt_iff (a b : string) :
  String.compare a b = Lt <-> key_lt a b.
Proof. apply String_as_OT.cmp_lt. Qed.

Lemma compare_gt_lt (a b : string) :
  String.compare a b = Gt -> key_lt b a.
Proof.
  intros H. apply compare_lt_iff.
  rewrite String.compare_antisym, H. reflexivity.
Qed.

Lemma key_lt_irrefl (a : string) : ~ key_lt a a.
Proof. intros H. apply String_as_OT.lt_not_eq in H. apply H. reflexivity. Qed.

Lemma In_insert_key (x k : string) (ks : list string) :
  In x (insert_key k ks) <-> x = k \/ In x ks.
Proof.
  induction ks as [|k' ks IH]; simpl.
  - intuition.
  - destruct (String.compare k k') eqn:E; simpl.
    + apply String.compare_eq_iff in E. subst k'. intuition.
    + intuition.
    + rewrite IH. intuition.
Qed.

Lemma insert_key_sorted (k : string) (ks : list string) :
  StronglySorted key_lt ks -> StronglySorted key_lt (insert_key k ks).
Proof.
  induction 1 as [|k' ks Hs IH Hall]; simpl.
  - constructor; constructor.
  - destruct (String.compare k k') eqn:E.
    + now constructor.
    + apply compare_lt_iff in E. constructor.
      * now constructor.
      * constructor; [assumption|].
        rewrite Forall_forall in *. intros y Hy.
        eapply String_as_OT.lt_trans; eauto.
    + apply compare_gt_lt in E. constructor; [assumption|].
      rewrite Forall_forall in *. intros y Hy.
      apply In_insert_key in Hy. destruct Hy as [->|Hy]; auto.
Qed.

Lemma sorted_NoDup (ks : list string) :
  StronglySorted key_lt ks -> NoDup ks.
Proof.
  induction 1 as [|k ks Hs IH Hall]; constructor; [|assumption].
  intros Hin. rewrite Forall_forall in Hall.
  exact (key_lt_irrefl k (Hall k Hin)).
Qed.

(** Two increasing lists with the same elements are the same list. *)
Lemma sorted_unique (a b : list string) :
  StronglySorted key_lt a -> StronglySorted key_lt b ->
  (forall x, In x a <-> In x b) -> a = b.
Proof.
  intros Ha. revert b.
  induction Ha as [|x a Hsa IH Hxa]; intros b Hb Hab.
  - destruct b as [|y b]; [reflexivity|].
    exfalso. apply (Hab y). now left.
  - destruct Hb as [|y b Hsb Hyb].
    + exfalso. apply (Hab x). now left.
    + rewrite Forall_forall in Hxa, Hyb.
      assert (x = y) as <-.
      { destruct (proj1 (Hab x) (or_introl eq_refl)) as [E|Hin]; [now symmetry|].
        destruct (proj2 (Hab y) (or_introl eq_refl)) as [E|Hin']; [assumption|].
        exfalso. apply (key_lt_irrefl x).
        eapply String_as_OT.lt_trans; [apply Hxa, Hin' | apply Hyb, Hin]. }
      f_equal. apply IH; [assumption|].
      intros z. split; intros Hz.
      * destruct (proj1 (Hab z) (or_intror Hz)) as [E|Hin]; [|assumption].
        subst z. exfalso. exact (key_lt_irrefl x (Hxa x Hz)).
      * destruct (proj2 (Hab z) (or_intror Hz)) as [E|Hin]; [|assumption].
        subst z. exfalso. exact (key_lt_irrefl x (Hyb x Hz)).
Qed.

(** *** Keys and groups *)

Lemma forget_unit (r : row unit) : forget r = r.
Proof. destruct r as [c a d []]. reflexivity. Qed.

Lemma map_forget_unit (df : frame unit) : map forget df = df.
Proof.
  induction df as [|r df IH]; simpl; [reflexivity|].
  now rewrite forget_unit, IH.
Qed.

Lemma filter_all_false {A} (f : A -> bool) (l : list A) :
  (forall x, In x l -> f x = false) -> filter f l = [].
Proof.
  induction l as [|a l IH]; simpl; intros H; [reflexivity|].
  rewrite (H a (or_introl eq_refl)). apply IH. intros x Hx. apply H. now right.
Qed.

Lemma filter_all_true {A} (f : A -> bool) (l : list A) :
  (forall x, In x l -> f x = true) -> filter f l = l.
Proof.
  induction l as [|a l IH]; simpl; intros H; [reflexivity|].
  rewrite (H a (or_introl eq_refl)). f_equal. apply IH. intros x Hx. apply H. now right.
Qed.

Lemma filter_comm {A} (f g : A -> bool) (l : list A) :
  filter f (filter g l) = filter g (filter f l).
Proof.
  induction l as [|a l IH]; simpl; [reflexivity|].
  destruct (f a) eqn:Ef, (g a) eqn:Eg; simpl; rewrite ?Ef, ?Eg, IH; reflexivity.
Qed.

Section Groups.
Context {X : Type}.
Implicit Types (df : frame X) (r : row X) (k : string).

Lemma in_group_country k r : in_group k r = true <-> country r = Some k.
Proof.
  unfold in_group. destruct (country r) as [c|].
  - rewrite String.eqb_eq. split; congruence.
  - split; discriminate.
Qed.

Lemma group_keys_In df k :
  In k (group_keys df) <-> exists r, In r df /\ country r = Some k.
Proof.
  induction df as [|a df IH]; simpl.
  - split; [contradiction | intros (r & [] & _)].
  - destruct (country a) as [c|] eqn:E.
    + rewrite In_insert_key, IH. split.
      * intros [->|(r & Hr & Hc)]; [exists a; auto | exists r; auto].
      * intros (r & [<-|Hr] & Hc); [left; congruence | right; eauto].
    + rewrite IH. split.
      * intros (r & Hr & Hc); eauto.
      * intros (r & [<-|Hr] & Hc); [congruence | eauto].
Qed.

Lemma group_keys_sorted df : StronglySorted key_lt (group_keys df).
Proof.
  induction df as [|a df IH]; simpl; [constructor|].
  destruct (country a); [now apply insert_key_sorted | assumption].
Qed.

Lemma group_keys_NoDup df : NoDup (group_keys df).
Proof. apply sorted_NoDup, group_keys_sorted. Qed.

Lemma group_nonempty df k :
  In k (group_keys df) <-> filter (in_group k) df <> [].
Proof.
  rewrite group_keys_In. split.
  - intros (r & Hr & Hc) E.
    assert (Hin : In r (filter (in_group k) df)).
    { apply filter_In. split; [assumption | now apply in_group_country]. }
    rewrite E in Hin. contradiction.
  - intros Hne. destruct (filter (in_group k) df) as [|r l] eqn:E; [contradiction|].
    assert (Hin : In r (filter (in_group k) df)) by (rewrite E; now left).
    apply filter_In in Hin. destruct Hin as [Hr Hg].
    exists r. split; [assumption | now apply in_group_country].
Qed.

Lemma group_rows df k r :
  In r (filter (in_group k) df) -> In r df /\ country r = Some k.
Proof.
  intros H. apply filter_In in H. destruct H as [Hr Hg].
  split; [assumption | now apply in_group_country].
Qed.

(** Frames with the same groups have the same [groupby]. *)
Lemma groupby_ext (a b : frame X) :
  (forall k, filter (in_group k) a = filter (in_group k) b) ->
  groupby a = groupby b.
Proof.
  intros H. unfold groupby.
  assert (E : group_keys a = group_keys b).
  { apply sorted_unique; try apply group_keys_sorted.
    intros k. rewrite !group_nonempty, H. reflexivity. }
  rewrite E. apply map_ext. intros k. now rewrite H.
Qed.

Lemma get_group_map (G : string -> frame X) (ks : list string) k :
  In k ks -> get_group k (map (fun j => (j, G j)) ks) = Some (G k).
Proof.
  induction ks as [|j ks IH]; simpl; [contradiction|].
  intros Hin. destruct (String.eqb_spec j k) as [->|Hne]; [reflexivity|].
  destruct Hin as [E|Hin]; [contradiction | auto].
Qed.

Lemma get_group_groupby df r k :
  In r df -> country r = Some k ->
  get_group k (groupby df) = Some (filter (in_group k) df).
Proof.
  intros Hr Hc. unfold groupby.
  apply (get_group_map (fun j => filter (in_group j) df)).
  apply group_keys_In. eauto.
Qed.

(** Missing keys do not take part in grouping. *)
Lemma group_keys_dropna df : group_keys (dropna df) = group_keys df.
Proof.
  unfold dropna. induction df as [|a df IH]; simpl; [reflexivity|].
  unfold has_key at 1. destruct (country a) as [c|] eqn:E; simpl.
  - now rewrite E, IH.
  - assumption.
Qed.

Lemma group_dropna df k :
  filter (in_group k) (dropna df) = filter (in_group k) df.
Proof.
  unfold dropna. rewrite filter_comm. apply filter_all_true.
  intros r Hr. apply group_rows in Hr. destruct Hr as [_ Hc].
  unfold has_key. now rewrite Hc.
Qed.

Lemma groupby_dropna df : groupby (dropna df) = groupby df.
Proof. apply groupby_ext. intros k. apply group_dropna. Qed.

End Groups.

Lemma group_keys_forget {X} (df : frame X) :
  group_keys (map forget df) = group_keys df.
Proof.
  induction df as [|a df IH]; simpl; [reflexivity|]. now rewrite IH.
Qed.

Lemma group_forget {X} (df : frame X) (k : string) :
  filter (in_group k) (map forget df) = map forget (filter (in_group k) df).
Proof.
  induction df as [|a df IH]; simpl; [reflexivity|].
  change (in_group k (forget a)) with (in_group k a).
  destruct (in_group k a); simpl; now rewrite IH.
Qed.

(** *** Regrouping: the rows of a frame, group after group *)

Section Regroup.
Context {X : Type}.
Implicit Types (df : frame X) (r : row X) (k : string).

Lemma covered_false ks r :
  (forall k, In k ks -> country r <> Some k) -> covered ks r = false.
Proof.
  intros H. unfold covered.
  destruct (existsb (fun k => in_group k r) ks) eqn:E; [|reflexivity].
  apply existsb_exists in E. destruct E as (k & Hk & Hg).
  apply in_group_country in Hg. now elim (H k Hk).
Qed.

Lemma covered_group_keys df r :
  In r df -> covered (group_keys df) r = has_key r.
Proof.
  intros Hr. unfold has_key. destruct (country r) as [c|] eqn:E.
  - apply existsb_exists. exists c. split.
    + apply group_keys_In. eauto.
    + now apply in_group_country.
  - apply covered_false. intros k _. congruence.
Qed.

Lemma filter_or_disjoint (p q : row X -> bool) df :
  (forall r, p r = true -> q r = false) ->
  Permutation (filter (fun r => p r || q r) df) (filter p df ++ filter q df).
Proof.
  intros D. induction df as [|a df IH]; simpl; [constructor|].
  destruct (p a) eqn:Ep; simpl.
  - rewrite (D a Ep). now constructor.
  - destruct (q a); [|assumption].
    now apply Permutation_cons_app.
Qed.

(** Regrouping keeps every covered row once and drops the others. *)
Lemma regroup_perm ks df :
  NoDup ks -> Permutation (regroup ks df) (filter (covered ks) df).
Proof.
  unfold regroup. induction 1 as [|j ks Hj Hnd IH]; simpl.
  - rewrite filter_all_false; [constructor | reflexivity].
  - etransitivity; [apply Permutation_app_head, IH|].
    symmetry. apply (filter_or_disjoint (in_group j) (covered ks)).
    intros r Hg. apply in_group_country in Hg.
    apply covered_false. intros k Hk E. congruence.
Qed.

Lemma groupby_partition df :
  Permutation (List.concat (map snd (groupby df))) (dropna df).
Proof.
  unfold groupby. rewrite map_map. simpl.
  etransitivity; [apply (regroup_perm (group_keys df) df), group_keys_NoDup|].
  unfold dropna. erewrite filter_ext_in; [reflexivity|].
  intros r Hr. now apply covered_group_keys.
Qed.

Lemma group_of_group df j k :
  filter (in_group k) (filter (in_group j) df)
  = if String.eqb j k then filter (in_group k) df else [].
Proof.
  destruct (String.eqb_spec j k) as [->|Hne].
  - apply filter_all_true. intros r Hr. apply group_rows in Hr.
    now apply in_group_country.
  - apply filter_all_false. intros r Hr. apply group_rows in Hr.
    destruct Hr as [_ Hc]. destruct (in_group k r) eqn:E; [|reflexivity].
    apply in_group_country in E. congruence.
Qed.

Lemma group_regroup_in ks df k :
  NoDup ks ->
  filter (in_group k) (regroup ks df)
  = if existsb (String.eqb k) ks then filter (in_group k) df else [].
Proof.
  unfold regroup. induction 1 as [|j ks Hj Hnd IH]; simpl; [reflexivity|].
  rewrite filter_app, group_of_group, IH.
  rewrite (String.eqb_sym k j).
  destruct (String.eqb_spec j k) as [->|Hne]; simpl; [|reflexivity].
  destruct (existsb (String.eqb k) ks) eqn:E; [|apply app_nil_r].
  apply existsb_exists in E. destruct E as (x & Hx & Hxk).
  apply String.eqb_eq in Hxk. subst x. contradiction.
Qed.

(** When [ks] has every key of the frame, regrouping keeps the groups. *)
Lemma group_regroup ks df k :
  NoDup ks -> incl (group_keys df) ks ->
  filter (in_group k) (regroup ks df) = filter (in_group k) df.
Proof.
  intros Hnd Hincl. rewrite group_regroup_in by assumption.
  destruct (existsb (String.eqb k) ks) eqn:E; [reflexivity|].
  symmetry. apply filter_all_false. intros r Hr.
  destruct (in_group k r) eqn:Hg; [|reflexivity].
  apply in_group_country in Hg.
  assert (Hk : In k ks) by (apply Hincl, group_keys_In; eauto).
  assert (existsb (String.eqb k) ks = true).
  { apply existsb_exists. exists k. split; [assumption | apply String.eqb_refl]. }
  congruence.
Qed.

Lemma groupby_regroup ks df :
  NoDup ks -> incl (group_keys df) ks ->
  groupby (regroup ks df) = groupby df.
Proof.
  intros Hnd Hincl. apply groupby_ext. intros k. now apply group_regroup.
Qed.

Lemma group_keys_filter (p : row X -> bool) df :
  incl (group_keys (filter p df)) (group_keys df).
Proof.
  intros k Hk. apply group_keys_In in Hk. destruct Hk as (r & Hr & Hc).
  apply filter_In in Hr. apply group_keys_In. exists r. tauto.
Qed.

End Regroup.

(** *** Sums *)

Lemma fold_left_add_up (l : list Q) (acc : Q) :
  fold_left Qplus l acc = Reference.add_up acc l.
Proof.
  revert acc. induction l as [|x l IH]; intros acc; simpl; [reflexivity|].
  apply IH.
Qed.

Lemma sum_total (l : list Q) : sum l = Reference.total l.
Proof. apply fold_left_add_up. Qed.

(** *** Sorting a column *)

Lemma filter_perm {A} (p : A -> bool) (a b : list A) :
  Permutation a b -> Permutation (filter p a) (filter p b).
Proof.
  induction 1 as [|x a b _ IH|x y a|a b c _ IH1 _ IH2]; simpl.
  - constructor.
  - destruct (p x); [now constructor | assumption].
  - destruct (p x), (p y); try reflexivity. constructor.
  - now transitivity (filter p b).
Qed.

Lemma insert_sorted_In (x y : Q) (l : list Q) :
  In y (insert_sorted x l) <-> y = x \/ In y l.
Proof.
  induction l as [|z l IH]; simpl.
  - intuition.
  - destruct (Qle_bool x z); simpl; [intuition|]. rewrite IH. intuition.
Qed.

Lemma sort_values_In (y : Q) (s : list Q) : In y (sort_values s) <-> In y s.
Proof.
  induction s as [|x s IH]; simpl; [reflexivity|].
  rewrite insert_sorted_In, IH. intuition.
Qed.

Lemma insert_sorted_perm (x : Q) (l : list Q) :
  Permutation (insert_sorted x l) (x :: l).
Proof.
  induction l as [|y l IH]; simpl; [reflexivity|].
  destruct (Qle_bool x y); [reflexivity|].
  rewrite IH. apply perm_swap.
Qed.

Lemma sort_values_perm (s : list Q) : Permutation (sort_values s) s.
Proof.
  induction s as [|x s IH]; simpl; [constructor|].
  rewrite insert_sorted_perm. now constructor.
Qed.

Lemma insert_sorted_sorted (x : Q) (l : list Q) :
  StronglySorted Qle l -> StronglySorted Qle (insert_sorted x l).
Proof.
  induction 1 as [|y l Hs IH Hall]; simpl.
  - constructor; constructor.
  - destruct (Qle_bool x y) eqn:E.
    + apply Qle_bool_iff in E. constructor; [now constructor|].
      constructor; [assumption|].
      rewrite Forall_forall in *. intros z Hz.
      apply Qle_trans with y; auto.
    + assert (Hyx : y <= x).
      { destruct (Qlt_le_dec y x) as [H|H]; [now apply Qlt_le_weak|].
        apply Qle_bool_iff in H. congruence. }
      constructor; [assumption|].
      rewrite Forall_forall in *. intros z Hz.
      apply insert_sorted_In in Hz. destruct Hz as [->|Hz]; auto.
Qed.

Lemma sort_values_sorted (s : list Q) : StronglySorted Qle (sort_values s).
Proof.
  induction s as [|x s IH]; simpl; [constructor|].
  now apply insert_sorted_sorted.
Qed.

End PandasFacts.

(* ================================================================== *)
(** ** Facts about the queries, on values *)

Module PurchasesFacts.
Import Pandas Purchases PandasFacts.

Lemma within_median_filter {X} (df : frame X) :
  within_median df
  = filter (fun r => le_scalar (amount r)
                       (mul_scalar (median (getitem_amount df)) 10)) df.
Proof.
  unfold within_median. rewrite le_broadcast_amount. apply getitem_mask_map.
Qed.

Lemma query_amount_le_median_filter {X} (df : frame X) :
  query_amount_le_median df
  = filter (fun r => le_scalar (amount r)
                       (mul_scalar (median (getitem_amount df)) 10)) df.
Proof. apply within_median_filter. Qed.

Lemma nested_apply_rows_regroup (t : DataFrame) :
  nested_apply_rows t
  = regroup (group_keys t) (filter (within_country_median t) t).
Proof.
  unfold nested_apply_rows, reset_index_drop, groupby_apply_frame, groupby, regroup.
  rewrite map_map. f_equal. apply map_ext. intros k. simpl.
  rewrite within_median_filter, (filter_comm (in_group k)).
  apply filter_ext_in. intros r Hr. apply group_rows in Hr.
  destruct Hr as [_ Hc]. unfold within_country_median. now rewrite Hc.
Qed.

Lemma combine_map_same {A B C} (f : A -> B) (g : A -> C) (l : list A) :
  combine (map f l) (map g l) = map (fun x => (f x, g x)) l.
Proof. induction l as [|a l IH]; simpl; [reflexivity | now rewrite IH]. Qed.

Lemma filter_map_comm {A B} (f : A -> B) (p : B -> bool) (l : list A) :
  filter p (map f l) = map f (filter (fun x => p (f x)) l).
Proof.
  induction l as [|a l IH]; simpl; [reflexivity|].
  destruct (p (f a)); simpl; now rewrite IH.
Qed.

Lemma assign_country_median_map {X} (T : row X -> option Q) (df : frame X) :
  assign_country_median df (map T df)
  = map (fun r => mkRow (country r) (amount r) (discount r) (T r)) df.
Proof.
  unfold assign_country_median.
  induction df as [|r df IH]; simpl; [reflexivity | now rewrite IH].
Qed.

Lemma query_amount_le_country_median_filter (df : frame (option Q)) :
  query_amount_le_country_median df
  = filter (fun r => le_scalar (amount r) (mul_scalar (added r) 10)) df.
Proof.
  unfold query_amount_le_country_median, le_columns, mul_column, getitem_amount.
  rewrite map_map, combine_map_same, map_map. simpl.
  apply (getitem_mask_map (fun r => le_scalar (amount r) (mul_scalar (added r) 10))).
Qed.

Lemma assign_query_rows_forget (t : DataFrame) :
  map forget (assign_query_rows t) = filter (within_country_median t) t.
Proof.
  unfold assign_query_rows, groupby_amount_transform_median.
  rewrite assign_country_median_map, query_amount_le_country_median_filter.
  rewrite filter_map_comm, map_map. simpl.
  rewrite (map_ext _ (fun r => r)) by (intros r; apply forget_unit).
  rewrite map_id. apply filter_ext_in. intros r Hr.
  unfold within_country_median, group_threshold.
  destruct (country r) as [c|] eqn:Hc; [|reflexivity].
  now rewrite (get_group_groupby t r c Hr Hc).
Qed.

Lemma net_sum_forget {X} (df : frame X) : net_sum (map forget df) = net_sum df.
Proof.
  unfold net_sum, getitem_amount, getitem_discount. now rewrite !map_map.
Qed.

Lemma net_by_country_groupby {X} (a b : frame X) :
  groupby a = groupby b -> net_by_country a = net_by_country b.
Proof. intros H. unfold net_by_country, groupby_apply. now rewrite H. Qed.

Lemma groupby_forget {X} (df : frame X) :
  groupby (map forget df)
  = map (fun kg => (fst kg, map forget (snd kg))) (groupby df).
Proof.
  unfold groupby. rewrite group_keys_forget, map_map. simpl.
  apply map_ext. intros k. now rewrite group_forget.
Qed.

Lemma net_by_country_forget {X} (df : frame X) :
  net_by_country (map forget df) = net_by_country df.
Proof.
  unfold net_by_country, groupby_apply. rewrite groupby_forget.
  destruct (groupby df) as [|kg gs]; [reflexivity|].
  simpl. rewrite net_sum_forget, map_map. simpl.
  do 5 f_equal. apply map_ext. intros kg'. now rewrite net_sum_forget.
Qed.

(** A query that ends in [.apply(net_sum).reset_index().rename(...)]
    raises when the frame it groups has no row with a country, and returns
    one record per country otherwise. *)
Lemma net_by_country_cases {X} (df : frame X) :
  net_by_country df
  = match group_keys df with
    | [] => Raised cannot_insert_country
    | ks => Returned
              (mkTable (Named "country", Named "total")
                 (map (fun c => (c, net_sum (filter (in_group c) df))) ks))
    end.
Proof.
  unfold net_by_country, groupby_apply, groupby.
  destruct (group_keys df) as [|k ks]; [reflexivity|].
  simpl. unfold rename_columns, series_reset_index. simpl.
  now rewrite map_map.
Qed.

(** Both per-country queries are the net totals of the rows within their
    group threshold. *)
Lemma nested_apply_totals (t : DataFrame) :
  net_without_country_outliers t
  = net_by_country (filter (within_country_median t) t).
Proof.
  unfold net_without_country_outliers. rewrite nested_apply_rows_regroup.
  apply net_by_country_groupby, groupby_regroup.
  - apply group_keys_NoDup.
  - apply group_keys_filter.
Qed.

Lemma assign_query_totals (t : DataFrame) :
  net_without_country_outliers_assign t
  = net_by_country (filter (within_country_median t) t).
Proof.
  unfold net_without_country_outliers_assign.
  now rewrite <- net_by_country_forget, assign_query_rows_forget.
Qed.


(** *** The specification's plan and the code *)

Lemma Qle_bool_times10 (a m : Q) : Qle_bool a (10 * m) = Qle_bool a (m * 10).
Proof.
  destruct (Qle_bool a (10 * m)) eqn:E1, (Qle_bool a (m * 10)) eqn:E2;
    try reflexivity; exfalso.
  - apply Qle_bool_iff in E1. rewrite Qmult_comm in E1.
    apply Qle_bool_iff in E1. congruence.
  - apply Qle_bool_iff in E2. rewrite Qmult_comm in E2.
    apply Qle_bool_iff in E2. congruence.
Qed.

Lemma keeps_within (t : DataFrame) (r : row unit) :
  Spec.keeps t r = within_country_median t r.
Proof.
  unfold Spec.keeps, within_country_median, group_threshold, Spec.country_median.
  destruct (country r) as [c|]; [|reflexivity].
  change (Spec.rows_of c t) with (filter (in_group c) t).
  change (map amount (filter (in_group c) t))
    with (getitem_amount (filter (in_group c) t)).
  destruct (median (getitem_amount (filter (in_group c) t))) as [m|]; simpl;
    [apply Qle_bool_times10 | reflexivity].
Qed.

Lemma kept_within (t : DataFrame) :
  Spec.kept t = filter (within_country_median t) t.
Proof. apply filter_ext. intros r. apply keeps_within. Qed.

Lemma keeps_global_query (t : DataFrame) :
  query_amount_le_median t = filter (Spec.keeps_global t) t.
Proof.
  rewrite query_amount_le_median_filter. apply filter_ext. intros r.
  unfold Spec.keeps_global. change (map amount t) with (getitem_amount t).
  destruct (median (getitem_amount t)) as [m|]; simpl;
    [symmetry; apply Qle_bool_times10 | reflexivity].
Qed.

Lemma within_has_key {X} (df : frame X) (r : row X) :
  within_country_median df r = true -> has_key r = true.
Proof.
  unfold within_country_median, has_key.
  destruct (country r); [reflexivity | discriminate].
Qed.

(** Lines 39-42 keep the rows within their group threshold, each once. *)
Lemma nested_apply_rows_perm (t : DataFrame) :
  Permutation (nested_apply_rows t) (filter (within_country_median t) t).
Proof.
  rewrite nested_apply_rows_regroup.
  etransitivity; [apply regroup_perm, group_keys_NoDup|].
  rewrite filter_all_true; [reflexivity|].
  intros r Hr. apply filter_In in Hr. destruct Hr as [Hr Hw].
  rewrite covered_group_keys by assumption. now apply within_has_key in Hw.
Qed.

(** *** Grouping as a partition *)

(** C3, as stated, fails on a row without country: the row is in no group,
    and the group sums (none) do not add up to the total 5. *)
Lemma groupby_partition_counterexample :
  ~ Permutation (List.concat (map snd (groupby missing_country_fixture)))
      missing_country_fixture
  /\ ~ sum (map snd (s_items (amount_by_country missing_country_fixture)))
       == total_amount missing_country_fixture.
Proof.
  split.
  - simpl. apply Permutation_nil_cons.
  - vm_compute. discriminate.
Qed.

(** C3, amended: grouping by country partitions the rows that have a
    country.  Every such row is in exactly one group (the groups, put
    together, hold each of them once; the keys are distinct; a group holds
    only rows of its key), rows without country are in no group, and the
    group-by sum lists exactly the countries that have a row, each with
    the sum of [amount] over the rows of that country.  That these sums add
    up to the total of line 7 is not part of the statement: the rows
    without country are missing from them, and the code adds
    floating-point numbers in another order for the total than for the
    groups. *)
Theorem groupby_partitions_keyed_rows (purchases : DataFrame) :
  Permutation (List.concat (map snd (groupby purchases))) (dropna purchases)
  /\ NoDup (map fst (groupby purchases))
  /\ (forall k g r, In (k, g) (groupby purchases) -> In r g -> country r = Some k)
  /\ map fst (s_items (amount_by_country purchases))
     = map fst (groupby purchases)
  /\ (forall c v,
        In (c, v) (s_items (amount_by_country purchases))
        <-> (exists r, In r purchases /\ country r = Some c)
            /\ v = Reference.total (map amount (Reference.rows_of c purchases))).
Proof.
  split; [|split; [|split; [|split]]].
  - apply groupby_partition.
  - unfold groupby. rewrite map_map. simpl. rewrite map_id.
    apply group_keys_NoDup.
  - intros k g r Hin Hr. unfold groupby in Hin. apply in_map_iff in Hin.
    destruct Hin as (k' & E & _). inversion E; subst.
    now apply group_rows in Hr.
  - unfold amount_by_country, groupby_amount_sum. simpl. now rewrite map_map.
  - intros c v. unfold amount_by_country, groupby_amount_sum, groupby. simpl.
    rewrite map_map. simpl. rewrite in_map_iff. split.
    + intros (k & E & Hk). inversion E; subst.
      split; [now apply group_keys_In|]. apply sum_total.
    + intros [Hc ->]. exists c. split; [|now apply group_keys_In].
      f_equal. apply sum_total.
Qed.

(** *** The global outlier filter *)

Lemma outlier_filter_second_pass :
  query_amount_le_median two_pass_fixture
  = [ mkRow (Some "US"%string) 1 0 tt; mkRow (Some "US"%string) 1 0 tt;
      mkRow (Some "US"%string) 15 0 tt; mkRow (Some "US"%string) 150 0 tt ]
  /\ query_amount_le_median (query_amount_le_median two_pass_fixture)
     = [ mkRow (Some "US"%string) 1 0 tt; mkRow (Some "US"%string) 1 0 tt;
         mkRow (Some "US"%string) 15 0 tt ].
Proof. split; reflexivity. Qed.

(** C4: when, after the first pass of [amount <= amount.median() * 10],
    no remaining row exceeds 10 times the median of the remaining rows, a
    second pass removes nothing. *)
Theorem outlier_filter_idempotent (purchases : DataFrame) :
  (forall r m,
     In r (query_amount_le_median purchases) ->
     median (getitem_amount (query_amount_le_median purchases)) = Some m ->
     amount r <= m * 10) ->
  query_amount_le_median (query_amount_le_median purchases)
  = query_amount_le_median purchases.
Proof.
  intros H.
  rewrite (query_amount_le_median_filter (query_amount_le_median purchases)).
  apply filter_all_true. intros r Hr.
  destruct (median_nonempty (getitem_amount (query_amount_le_median purchases)))
    as [m Hm].
  { unfold getitem_amount. intros E. apply map_eq_nil in E.
    rewrite E in Hr. contradiction. }
  rewrite Hm. simpl. apply Qle_bool_iff. now apply H.
Qed.

Lemma outlier_filter_idempotent_witness :
  query_amount_le_median (query_amount_le_median fixture)
  = query_amount_le_median fixture.
Proof.
  apply (outlier_filter_idempotent fixture).
  intros r m Hr Hm. vm_compute in Hm. injection Hm as <-.
  vm_compute in Hr.
  destruct Hr as [<-|[<-|[]]]; unfold Qle; simpl; lia.
Defined.

(** *** The fixture *)

(** C5: on the two-row fixture the total sum is 150 and the net total per
    country is 135 for US. *)
Theorem fixture_totals :
  total_amount fixture = 150
  /\ net_total_by_country fixture
     = Returned (mkTable (Named "country", Named "total") [ ("US"%string, 135) ]).
Proof. split; reflexivity. Qed.

(** *** Which median the outlier queries use *)

(** C6, as stated, fails for the first filtered query (lines 30-36): the
    US row is within 10 times the median of its own country (100), yet the
    query removes it, because its threshold is 10 times the median of the
    whole table (1). *)
Lemma first_outlier_query_counterexample :
  In (mkRow (Some "US"%string) 100 0 tt) global_median_fixture
  /\ Spec.keeps global_median_fixture (mkRow (Some "US"%string) 100 0 tt) = true
  /\ ~ In (mkRow (Some "US"%string) 100 0 tt)
        (query_amount_le_median global_median_fixture).
Proof.
  split; [|split].
  - simpl. tauto.
  - reflexivity.
  - vm_compute. intros [E|[E|[E|[]]]]; discriminate E.
Qed.

(** C6, amended: the first filtered query (line 31) keeps exactly the rows
    whose amount is at most 10 times the median of [amount] over the whole
    table; the two per-country queries (lines 39-42 and 50-54) keep exactly
    the rows that have a country and whose amount is at most 10 times the
    median of their own country, each once. *)
Theorem outlier_queries_thresholds (purchases : DataFrame) :
  query_amount_le_median purchases
  = filter (Spec.keeps_global purchases) purchases
  /\ Permutation (nested_apply_rows purchases)
       (filter (Spec.keeps purchases) purchases)
  /\ map forget (assign_query_rows purchases)
     = filter (Spec.keeps purchases) purchases.
Proof.
  split; [|split].
  - apply keeps_global_query.
  - fold (Spec.kept purchases). rewrite kept_within.
    apply nested_apply_rows_perm.
  - fold (Spec.kept purchases). rewrite kept_within.
    apply assign_query_rows_forget.
Qed.

(** *** Rows without country *)

Lemma net_by_country_dropna {X} (df : frame X) :
  net_by_country df = net_by_country (dropna df).
Proof. apply net_by_country_groupby. symmetry. apply groupby_dropna. Qed.

Lemma nested_apply_dropna (t : DataFrame) :
  net_without_country_outliers t = net_without_country_outliers (dropna t).
Proof.
  unfold net_without_country_outliers, nested_apply_rows, groupby_apply_frame.
  now rewrite groupby_dropna.
Qed.

(** C9: rows whose country is missing are in no group of any group-by
    result.  No group of [groupby] holds such a row; every group-by query
    that groups the purchases table gives the same result on the table
    without those rows, and the query that filters on the global median
    first gives the net totals of the filtered rows that have a country. *)
Theorem missing_country_rows_excluded (purchases : DataFrame) :
  (forall X (df : frame X) k g r,
     In (k, g) (groupby df) -> In r g -> country r <> None)
  /\ amount_by_country purchases = amount_by_country (dropna purchases)
  /\ total_by_country purchases = total_by_country (dropna purchases)
  /\ net_total_by_country purchases = net_total_by_country (dropna purchases)
  /\ net_without_outliers purchases
     = net_by_country (dropna (query_amount_le_median purchases))
  /\ net_without_country_outliers purchases
     = net_without_country_outliers (dropna purchases)
  /\ net_without_country_outliers_assign purchases
     = net_without_country_outliers_assign (dropna purchases).
Proof.
  split; [|repeat split].
  - intros X df k g r Hin Hr. unfold groupby in Hin. apply in_map_iff in Hin.
    destruct Hin as (k' & E & _). inversion E; subst.
    apply group_rows in Hr. destruct Hr as [_ Hc]. congruence.
  - unfold amount_by_country, groupby_amount_sum. now rewrite groupby_dropna.
  - unfold total_by_country, groupby_agg_amount_sum. now rewrite groupby_dropna.
  - apply net_by_country_dropna.
  - apply net_by_country_dropna.
  - apply nested_apply_dropna.
  - rewrite !assign_query_totals, <- !nested_apply_totals.
    apply nested_apply_dropna.
Qed.

End PurchasesFacts.

(* ================================================================== *)
(** ** The pandas operations against the plan in plain terms *)

Module ReferenceFacts.
Import Pandas Purchases PandasFacts PurchasesFacts.

(** *** The median *)










(** *** The rows kept and their totals *)









End ReferenceFacts.
(* ================================================================== *)
(** ** Reasoning about heap computations *)

Module ObjectFacts.
Import Pandas Objects.

Lemma extends_refl h : extends h h.
Proof. exists []. now rewrite app_nil_r. Qed.

Lemma extends_trans h1 h2 h3 : extends h1 h2 -> extends h2 h3 -> extends h1 h3.
Proof. intros [e1 ->] [e2 ->]. exists (e1 ++ e2). now rewrite app_assoc. Qed.

Lemma extends_holds h h' l o : extends h h' -> holds h l o -> holds h' l o.
Proof.
  intros [e ->] H. unfold holds in *. rewrite nth_error_app1; [assumption|].
  apply nth_error_Some. congruence.
Qed.

Lemma extends_length h h' : extends h h' -> (List.length h <= List.length h')%nat.
Proof. intros [e ->]. rewrite length_app. lia. Qed.

Lemma holds_length h l o : holds h l o -> (l < List.length h)%nat.
Proof. intros H. apply nth_error_Some. unfold holds in H. congruence. Qed.

Lemma update_holds (h : heap) (l : loc) (o : obj) :
  (l < List.length h)%nat -> holds (update h l o) l o.
Proof.
  revert l. induction h as [|x h IH]; intros l Hl; simpl in Hl; [lia|].
  destruct l as [|l]; [reflexivity|]. simpl. apply IH. lia.
Qed.

Lemma update_app (h ext : heap) (l : loc) (o : obj) :
  (List.length h <= l)%nat ->
  update (h ++ ext) l o = h ++ update ext (l - List.length h)%nat o.
Proof.
  revert l. induction h as [|x h IH]; intros l Hl; simpl in *.
  - now rewrite Nat.sub_0_r.
  - destruct l as [|l]; [lia|]. simpl. f_equal. apply IH. lia.
Qed.

(** Changing an object that was allocated after [h] changes nothing in
    [h]. *)
Lemma update_extends (h h' : heap) (l : loc) (o : obj) :
  extends h h' -> (List.length h <= l)%nat -> extends h (update h' l o).
Proof.
  intros [ext ->] Hl. exists (update ext (l - List.length h)%nat o).
  now apply update_app.
Qed.

(** *** Computations that return *)

Lemma returns_ret {A} (a : A) h (Q : heap -> A -> Prop) :
  Q h a -> returns (ret a) h Q.
Proof.
  intros H. exists h, a. split; [reflexivity|].
  split; [apply extends_refl | assumption].
Qed.

Lemma returns_bind {A B} (m : Py A) (k : A -> Py B) h P Q :
  returns m h P ->
  (forall h1 a, extends h h1 -> P h1 a -> returns (k a) h1 Q) ->
  returns (bind m k) h Q.
Proof.
  intros (h1 & a & Hm & E1 & HP) Hk.
  destruct (Hk h1 a E1 HP) as (h2 & b & Hk' & E2 & HQ).
  exists h2, b. split; [|split].
  - unfold bind. now rewrite Hm.
  - eapply extends_trans; eassumption.
  - assumption.
Qed.

Lemma returns_conseq {A} (m : Py A) h (P Q : heap -> A -> Prop) :
  returns m h P ->
  (forall h' a, extends h h' -> P h' a -> Q h' a) ->
  returns m h Q.
Proof.
  intros (h1 & a & Hm & E1 & HP) H. exists h1, a. auto.
Qed.

Lemma returns_alloc o h : returns (alloc o) h (fresh h o).
Proof.
  exists (h ++ [o]), (List.length h). split; [reflexivity|].
  split; [now exists [o]|]. split; [|lia].
  unfold holds. rewrite nth_error_app2 by lia. now rewrite Nat.sub_diag.
Qed.

Lemma returns_load l o h :
  holds h l o -> returns (load l) h (fun h' o' => h' = h /\ o' = o).
Proof.
  intros H. exists h, o. unfold load. rewrite H.
  split; [reflexivity|]. split; [apply extends_refl | auto].
Qed.

(** *** Computations that may raise *)

Lemma runs_returns {A} (m : Py A) h (P : heap -> A -> Prop) :
  returns m h P ->
  runs m h (fun h' o => exists a, o = Returned a /\ P h' a).
Proof.
  intros (h1 & a & Hm & E1 & HP). unfold runs. rewrite Hm. simpl. eauto.
Qed.

Lemma runs_conseq {A} (m : Py A) h (P Q : heap -> outcome A -> Prop) :
  runs m h P ->
  (forall h' o, extends h h' -> P h' o -> Q h' o) ->
  runs m h Q.
Proof. intros [E HP] H. split; auto. Qed.

Lemma runs_bind {A B} (m : Py A) (k : A -> Py B) h P Q :
  runs m h P ->
  (forall h1 a, extends h h1 -> P h1 (Returned a) -> runs (k a) h1 Q) ->
  (forall h1 e, extends h h1 -> P h1 (Raised e) -> Q h1 (Raised e)) ->
  runs (bind m k) h Q.
Proof.
  unfold runs, bind. intros [E HP] Hk He.
  destruct (m h) as [h1 [a|e]]; simpl in *.
  - destruct (Hk h1 a E HP) as [E2 HQ]. split; [|assumption].
    eapply extends_trans; eassumption.
  - split; [assumption | now apply He].
Qed.

(** A step that returns, followed by steps that may raise. *)
Lemma runs_after {A B} (m : Py A) (k : A -> Py B) h P Q :
  returns m h P ->
  (forall h1 a, extends h h1 -> P h1 a -> runs (k a) h1 Q) ->
  runs (bind m k) h Q.
Proof.
  intros Hm Hk. eapply runs_bind; [apply runs_returns, Hm| |].
  - intros h1 a E (a' & Ea & HP). injection Ea as <-. now apply Hk.
  - intros h1 e E (a' & Ea & _). discriminate.
Qed.

Lemma runs_raise {A} (e : error) h (Q : heap -> outcome A -> Prop) :
  Q h (Raised e) -> runs (raise e) h Q.
Proof. intros H. split; [apply extends_refl | exact H]. Qed.

Lemma yields_returned (m : Py loc) h v :
  returns m h (fresh h v) -> runs m h (yields h (Returned v)).
Proof.
  intros H. eapply runs_conseq; [apply runs_returns, H|].
  intros h' o _ (r & -> & Hr). exists r. auto.
Qed.

(** An expected outcome stays the expected one when it is measured from
    an earlier heap. *)
Lemma yields_weaken h0 h expected h' o :
  (List.length h0 <= List.length h)%nat ->
  yields h expected h' o -> yields h0 expected h' o.
Proof.
  unfold yields, fresh. intros Hlen. destruct expected as [v|e]; [|auto].
  intros (r & -> & Hr & Hfr). exists r. repeat split; [assumption | lia].
Qed.

(** The columns of one frame have the length of the frame. *)
Ltac same_length_tac :=
  unfold same_length, getitem_amount, getitem_discount, le_broadcast,
    le_columns, mul_column, Pandas.sub, groupby_amount_transform_median;
  repeat (rewrite ?length_map, ?length_combine, ?Nat.min_id);
  apply Nat.eqb_refl.

(** Unfolding one method call whose receiver and arguments are known
    objects. *)
Ltac py_unfold :=
  unfold head, copy, getitem, getitem_bool, Objects.sub, mul, le,
    Objects.median, Objects.groupby, Objects.sum, agg, transform,
    reset_index, rename, grouped, groups_of, setitem_country_median,
    store, bind, load;
  repeat (match goal with
          | H : holds ?h ?l ?o |- context [nth_error ?h ?l] =>
              rewrite (H : nth_error h l = Some o)
          end; simpl);
  repeat match goal with
         | |- context [same_length ?a ?b] =>
             replace (same_length a b) with true by (symmetry; same_length_tac)
         end.

(** One method call that returns a new object. *)
Ltac py_call :=
  unfold returns; py_unfold; exact (returns_alloc _ _).

(** Move what is known of the heap before a step to the heap after it. *)
Ltac transport E :=
  match type of E with
  | extends ?h ?h1 =>
      repeat match goal with
             | H : holds h ?l ?o |- _ => apply (extends_holds h h1 l o E) in H
             end;
      apply extends_length in E
  end.

Ltac py_intro :=
  let h1 := fresh "h" in
  let l := fresh "l" in
  let E := fresh "E" in
  let Hl := fresh "Hl" in
  let Hf := fresh "Hf" in
  intros h1 l E [Hl Hf]; transport E.

Ltac py_step := eapply returns_bind; [ py_call | py_intro ].

Ltac py_last :=
  eapply returns_conseq;
  [ py_call
  | let E := fresh "E" in
    intros ? ? E [? ?]; split; [assumption | lia] ].

(** A step that is a procedure with a proved specification. *)
Ltac py_proc spec :=
  eapply returns_bind;
  [ eapply spec; try eassumption; try constructor | py_intro ].

Ltac py_proc_last spec :=
  eapply returns_conseq;
  [ eapply spec; try eassumption; try constructor
  | let E := fresh "E" in
    intros ? ? E [? ?]; split; [assumption | lia] ].

(** A step that returns, in a computation that may raise later. *)
Ltac py_step_then := eapply runs_after; [ py_call | py_intro ].

Ltac py_proc_then spec :=
  eapply runs_after;
  [ eapply spec; try eassumption; try constructor | py_intro ].

End ObjectFacts.

Module ScriptFacts.
Import Pandas Objects ObjectFacts.

Lemma total_amount_spec h p t :
  holds h p (ODataFrame t) ->
  returns (Script.total_amount p) h (fresh h (ONumber (Purchases.total_amount t))).
Proof.
  intros Hp. unfold Script.total_amount.
  py_step. py_last.
Qed.

Lemma amount_by_country_spec h p t :
  holds h p (ODataFrame t) ->
  returns (Script.amount_by_country p) h
    (fresh h (OKeyedSeries (Purchases.amount_by_country t))).
Proof.
  intros Hp. unfold Script.amount_by_country.
  py_step. py_step. py_last.
Qed.

Lemma total_by_country_spec h p t :
  holds h p (ODataFrame t) ->
  returns (Script.total_by_country p) h
    (fresh h (OTable (Purchases.total_by_country t))).
Proof.
  intros Hp. unfold Script.total_by_country.
  py_step. py_step. py_last.
Qed.

Lemma net_sum_spec h l o X (df : frame X) :
  is_frame o X df -> holds h l o ->
  returns (Script.net_sum l) h (fresh h (ONumber (Purchases.net_sum df))).
Proof.
  intros Ho Hl. unfold Script.net_sum.
  destruct Ho; py_step; py_step; py_step; py_last.
Qed.

Lemma amount_le_median_spec h l o X (df : frame X) :
  is_frame o X df -> holds h l o ->
  returns (Script.amount_le_median l) h
    (fresh h (OMask (le_broadcast (getitem_amount df)
                       (mul_scalar (Pandas.median (getitem_amount df)) 10)))).
Proof.
  intros Ho Hl. unfold Script.amount_le_median.
  destruct Ho; py_step; py_step; py_step; py_step; py_last.
Qed.

(** *** The callbacks of [apply] *)

Lemma grouped_spec h g src o X (df : frame X) :
  is_frame o X df -> holds h g (OGroupBy src) -> holds h src o ->
  returns (grouped g) h (fun h' gs => h' = h /\ groups_of o = Some gs).
Proof.
  intros Ho Hg Hsrc. exists h. unfold grouped, bind, load.
  rewrite (Hg : nth_error h g = Some _), (Hsrc : nth_error h src = Some _).
  destruct Ho; simpl; eexists; (split; [reflexivity|]);
    (split; [apply extends_refl | split; reflexivity]).
Qed.

Lemma apply_each_spec {G} (mk R : G -> obj) f (gs : list (string * G)) :
  (forall h l g, holds h l (mk g) ->
     returns (f l) h (fun h' r => holds h' r (R g))) ->
  forall h,
    returns (apply_each f (map (fun kg => (fst kg, mk (snd kg))) gs)) h
      (fun _ os => os = map (fun kg => (fst kg, R (snd kg))) gs).
Proof.
  intros Hf. induction gs as [|[k g] gs IH]; intros h; simpl.
  - apply returns_ret. reflexivity.
  - eapply returns_bind; [apply returns_alloc|].
    intros h1 l _ [Hl _].
    eapply returns_bind; [apply (Hf h1 l g Hl)|].
    intros h2 r _ Hr.
    eapply returns_bind; [apply (returns_load r _ h2 Hr)|].
    intros h3 o _ [-> ->].
    eapply returns_bind; [apply IH|].
    intros h4 os _ ->.
    apply returns_ret. reflexivity.
Qed.

Lemma as_numbers_map {G} (F : G -> Q) (gs : list (string * G)) :
  as_numbers (map (fun kg => (fst kg, ONumber (F (snd kg)))) gs)
  = Some (map (fun kg => (fst kg, F (snd kg))) gs).
Proof.
  induction gs as [|[k g] gs IH]; simpl; [reflexivity | now rewrite IH].
Qed.

Lemma as_frames_map {G} (F : G -> frame unit) (gs : list (string * G)) :
  as_frames (map (fun kg => (fst kg, ODataFrame (F (snd kg)))) gs)
  = Some (map (fun kg => F (snd kg)) gs).
Proof.
  induction gs as [|[k g] gs IH]; simpl; [reflexivity | now rewrite IH].
Qed.

Lemma combine_applied_numbers {X} (F : frame X -> Q) (df : frame X) :
  combine_applied
    (map (fun kg => (fst kg, ONumber (F (snd kg)))) (Pandas.groupby df))
  = Some (applied_obj (groupby_apply F df)).
Proof.
  unfold groupby_apply.
  destruct (Pandas.groupby df) as [|[k g] gs]; [reflexivity|].
  unfold combine_applied. simpl. rewrite as_numbers_map. reflexivity.
Qed.

Lemma combine_applied_frames {X} (F : frame X -> frame unit) (df : frame X) :
  combine_applied
    (map (fun kg => (fst kg, ODataFrame (F (snd kg)))) (Pandas.groupby df))
  = Some (match Pandas.groupby df with
          | [] => OEmptyApplied
          | gs => ODataFrame (List.concat (map (fun kg => F (snd kg)) gs))
          end).
Proof.
  destruct (Pandas.groupby df) as [|[k g] gs]; [reflexivity|].
  unfold combine_applied. simpl. rewrite as_frames_map. reflexivity.
Qed.

Lemma fresh_from h0 h o :
  (List.length h0 <= List.length h)%nat ->
  forall h' r, fresh h o h' r -> fresh h0 o h' r.
Proof. intros Hlen h' r [Hr Hfr]. split; [assumption | lia]. Qed.

(** [apply] with a callback that computes the number [F] of each group. *)
Lemma apply_spec h g src o X (df : frame X) f (F : frame X -> Q) :
  is_frame o X df -> holds h g (OGroupBy src) -> holds h src o ->
  (forall h1 l o1 sub, is_frame o1 X sub -> holds h1 l o1 ->
     returns (f l) h1 (fun h2 r => holds h2 r (ONumber (F sub)))) ->
  returns (apply g f) h (fresh h (applied_obj (groupby_apply F df))).
Proof.
  intros Ho Hg Hsrc Hf. unfold apply.
  eapply returns_bind; [eapply grouped_spec; eassumption|].
  intros h1 gs _ [-> Hgs].
  destruct Ho; simpl in Hgs; injection Hgs as <-.
  - eapply returns_bind.
    { apply (apply_each_spec ODataFrame (fun sub => ONumber (F sub))).
      intros h1 l sub Hl. apply (Hf h1 l _ sub (IsDataFrame sub) Hl). }
    intros h2 os E ->. rewrite combine_applied_numbers. transport E.
    eapply returns_conseq; [apply returns_alloc|].
    intros h3 r _. now apply fresh_from.
  - eapply returns_bind.
    { apply (apply_each_spec OAssigned (fun sub => ONumber (F sub))).
      intros h1 l sub Hl. apply (Hf h1 l _ sub (IsAssigned sub) Hl). }
    intros h2 os E ->. rewrite combine_applied_numbers. transport E.
    eapply returns_conseq; [apply returns_alloc|].
    intros h3 r _. now apply fresh_from.
Qed.

(** [apply] with a callback that computes the frame [F] of each group. *)
Lemma apply_frame_spec h g src (df : frame unit) f (F : frame unit -> frame unit) :
  holds h g (OGroupBy src) -> holds h src (ODataFrame df) ->
  (forall h1 l sub, holds h1 l (ODataFrame sub) ->
     returns (f l) h1 (fun h2 r => holds h2 r (ODataFrame (F sub)))) ->
  returns (apply g f) h
    (fresh h (match Pandas.groupby df with
              | [] => OEmptyApplied
              | gs => ODataFrame (List.concat (map (fun kg => F (snd kg)) gs))
              end)).
Proof.
  intros Hg Hsrc Hf. unfold apply.
  eapply returns_bind; [eapply grouped_spec; [apply IsDataFrame | eassumption..]|].
  intros h1 gs _ [-> Hgs]. simpl in Hgs. injection Hgs as <-.
  eapply returns_bind.
  { apply (apply_each_spec ODataFrame (fun sub => ODataFrame (F sub))).
    intros h1 l sub Hl. apply (Hf h1 l sub Hl). }
  intros h2 os E ->. rewrite combine_applied_frames. transport E.
  eapply returns_conseq; [apply returns_alloc|].
  intros h3 r _. apply fresh_from. exact E.
Qed.

Lemma forget_fresh {A} (m : Py A) h (P : heap -> A -> Prop) (n : A -> Prop) :
  returns m h (fun h' a => P h' a /\ n a) -> returns m h P.
Proof. intros H. eapply returns_conseq; [exact H|]. now intros h' a _ [HP _]. Qed.

(** The tail of the four net-total queries: it displays the table of
    [Purchases.net_by_country], or raises as it does. *)
Lemma net_by_country_spec h l o X (df : frame X) :
  is_frame o X df -> holds h l o ->
  runs (Script.net_by_country l) h
    (yields h (outcome_map OTable (Purchases.net_by_country df))).
Proof.
  intros Ho Hl. unfold Script.net_by_country.
  eapply runs_after; [destruct Ho; py_call|]. py_intro.
  eapply runs_after.
  { eapply (apply_spec _ _ l o X df Script.net_sum Purchases.net_sum);
      try eassumption.
    intros h2 l2 o2 sub Ho2 Hl2.
    eapply forget_fresh. eapply net_sum_spec; eassumption. }
  py_intro.
  unfold Purchases.net_by_country.
  destruct (groupby_apply Purchases.net_sum df) as [s|]; simpl in *.
  - eapply runs_conseq;
      [ apply (yields_returned _ _
                 (OTable (rename_columns (Unnamed 0) "total"
                            (series_reset_index s))));
        py_step; py_last
      | intros ? ? _; apply yields_weaken; lia ].
  - unfold runs. py_unfold. split; [apply extends_refl | reflexivity].
Qed.

Lemma within_median_spec h l df :
  holds h l (ODataFrame df) ->
  returns (Script.within_median l) h
    (fresh h (ODataFrame (Purchases.within_median df))).
Proof.
  intros Hl. unfold Script.within_median.
  py_proc amount_le_median_spec. py_last.
Qed.

Lemma country_median_spec h l df :
  holds h l (ODataFrame df) ->
  returns (Script.country_median l) h
    (fresh h (ONaColumn (groupby_amount_transform_median df))).
Proof.
  intros Hl. unfold Script.country_median.
  py_step. py_step. py_last.
Qed.

Lemma amount_le_country_median_spec h l df :
  holds h l (OAssigned df) ->
  returns (Script.amount_le_country_median l) h
    (fresh h (OMask (le_columns (getitem_amount df)
                       (mul_column (map added df) 10)))).
Proof.
  intros Hl. unfold Script.amount_le_country_median.
  py_step. py_step. py_step. py_last.
Qed.

(** *** The queries *)

Lemma net_total_by_country_spec h p t :
  holds h p (ODataFrame t) ->
  runs (Script.net_total_by_country p) h
    (yields h (outcome_map OTable (Purchases.net_total_by_country t))).
Proof.
  intros Hp. eapply net_by_country_spec; [constructor | eassumption].
Qed.

Lemma query_amount_le_median_spec h l df :
  holds h l (ODataFrame df) ->
  returns (query l Script.amount_le_median) h
    (fresh h (ODataFrame (Purchases.query_amount_le_median df))).
Proof.
  intros Hl. unfold query.
  py_proc amount_le_median_spec. py_last.
Qed.

(** The last step of a query: the tail, on a frame that earlier steps
    have built. *)
Ltac py_tail :=
  eapply runs_conseq;
  [ eapply net_by_country_spec; [constructor | eassumption]
  | intros ? ? _; apply yields_weaken; lia ].

Lemma net_without_outliers_spec h p t :
  holds h p (ODataFrame t) ->
  runs (Script.net_without_outliers p) h
    (yields h (outcome_map OTable (Purchases.net_without_outliers t))).
Proof.
  intros Hp. unfold Script.net_without_outliers.
  py_proc_then query_amount_le_median_spec.
  py_tail.
Qed.

Lemma apply_within_median_spec h g src df :
  holds h g (OGroupBy src) -> holds h src (ODataFrame df) ->
  returns (f <- apply g Script.within_median ;; reset_index f true) h
    (fresh h (ODataFrame (Purchases.nested_apply_rows df))).
Proof.
  intros Hg Hsrc.
  eapply returns_bind.
  { eapply (apply_frame_spec _ _ _ df Script.within_median
              Purchases.within_median); try eassumption.
    intros h2 l2 sub Hl2. eapply forget_fresh, within_median_spec, Hl2. }
  py_intro.
  unfold Purchases.nested_apply_rows, groupby_apply_frame, reset_index_drop.
  destruct (Pandas.groupby df); py_last.
Qed.

Lemma bind_assoc {A B C} (m : Py A) (k : A -> Py B) (k' : B -> Py C) h :
  bind (bind m k) k' h = bind m (fun a => bind (k a) k') h.
Proof. unfold bind. destruct (m h) as [h1 [a|e]]; reflexivity. Qed.

Lemma net_without_country_outliers_spec h p t :
  holds h p (ODataFrame t) ->
  runs (Script.net_without_country_outliers p) h
    (yields h (outcome_map OTable (Purchases.net_without_country_outliers t))).
Proof.
  intros Hp. unfold Script.net_without_country_outliers.
  py_step_then.
  assert (Hrun : runs
            (bind (f <- apply l Script.within_median ;; reset_index f true)
                  Script.net_by_country) h0
            (yields h (outcome_map OTable
                         (Purchases.net_without_country_outliers t)))).
  { py_proc_then apply_within_median_spec. py_tail. }
  unfold runs in *. now rewrite bind_assoc in Hrun.
Qed.

Lemma assign_country_median_spec h l df :
  holds h l (ODataFrame df) ->
  returns (assign_country_median l Script.country_median) h
    (fresh h (OAssigned (Pandas.assign_country_median df
                           (groupby_amount_transform_median df)))).
Proof.
  intros Hl.
  assert (Hcopy : returns (copy l) h (fresh h (ODataFrame df))) by py_call.
  destruct Hcopy as (h1 & data & Hrun1 & E1 & Hd & Hfd).
  destruct (country_median_spec h1 data df Hd)
    as (h2 & c & Hrun2 & E2 & Hc & _).
  pose proof (extends_holds h1 h2 data _ E2 Hd) as Hd2.
  exists (update h2 data
            (OAssigned (Pandas.assign_country_median df
                          (groupby_amount_transform_median df)))), data.
  split; [|split; [|split]].
  - unfold assign_country_median, bind. rewrite Hrun1, Hrun2.
    py_unfold. rewrite (Hd2 : nth_error h2 data = Some _). reflexivity.
  - apply update_extends; [eapply extends_trans; eassumption | exact Hfd].
  - apply update_holds. now apply holds_length in Hd2.
  - exact Hfd.
Qed.

Lemma query_amount_le_country_median_spec h l df :
  holds h l (OAssigned df) ->
  returns (query l Script.amount_le_country_median) h
    (fresh h (OAssigned (Purchases.query_amount_le_country_median df))).
Proof.
  intros Hl. unfold query.
  py_proc amount_le_country_median_spec. py_last.
Qed.

Lemma net_without_country_outliers_assign_spec h p t :
  holds h p (ODataFrame t) ->
  runs (Script.net_without_country_outliers_assign p) h
    (yields h (outcome_map OTable
                 (Purchases.net_without_country_outliers_assign t))).
Proof.
  intros Hp. unfold Script.net_without_country_outliers_assign.
  py_proc_then assign_country_median_spec.
  py_proc_then query_amount_le_country_median_spec.
  py_tail.
Qed.

(** Every query changes no object; it returns a new object that holds the
    value of the query on the purchases table, or raises as the value
    layer says. *)
Lemma run_query_spec q h p t :
  holds h p (ODataFrame t) ->
  runs (Script.run_query q p) h (yields h (Script.outcome_of q t)).
Proof.
  intros Hp. destruct q; simpl.
  - now apply yields_returned, total_amount_spec.
  - now apply yields_returned, amount_by_country_spec.
  - now apply yields_returned, total_by_country_spec.
  - now apply net_total_by_country_spec.
  - now apply net_without_outliers_spec.
  - now apply net_without_country_outliers_spec.
  - now apply net_without_country_outliers_assign_spec.
Qed.

(** *** Item assignment, which the script does not use *)

(** The heap does have operations that change an object: after the
    in-place counterpart of lines 51-53 the purchases table is another
    frame, with one column more. *)
Lemma in_place_assignment_mutates h p t :
  holds h p (ODataFrame t) ->
  holds (fst (Script.set_country_median_in_place p h)) p
    (OAssigned (Pandas.assign_country_median t
                  (groupby_amount_transform_median t))).
Proof.
  intros Hp.
  destruct (country_median_spec h p t Hp) as (h1 & c & Hrun & E & Hc & _).
  pose proof (extends_holds h h1 p _ E Hp) as Hp1.
  unfold Script.set_country_median_in_place, bind. rewrite Hrun.
  py_unfold. rewrite (Hp1 : nth_error h1 p = Some _). simpl.
  apply update_holds. now apply holds_length in Hp1.
Qed.

(** *** The claims on the heap *)

(** C7: no query mutates the loaded purchases table.  From any heap that
    holds the table, whether a query returns or raises, the table, and
    every other object that existed before, is afterwards what it was; a
    query that returns gives a new object, at a location that was not
    allocated before, holding the value of the query.  The query of lines
    50-59 does change an object in place: the copy of the table that
    [assign] makes, not the table. *)
Theorem queries_do_not_mutate (q : Script.query_expr) (h : heap)
    (purchases : loc) (t : DataFrame) :
  holds h purchases (ODataFrame t) ->
  holds (fst (Script.run_query q purchases h)) purchases (ODataFrame t)
  /\ (forall l o, holds h l o ->
        holds (fst (Script.run_query q purchases h)) l o)
  /\ match snd (Script.run_query q purchases h) with
     | Returned r =>
         (List.length h <= r)%nat
         /\ r <> purchases
         /\ exists v, Script.outcome_of q t = Returned v
                      /\ holds (fst (Script.run_query q purchases h)) r v
     | Raised e => Script.outcome_of q t = Raised e
     end.
Proof.
  intros Hp. destruct (run_query_spec q h purchases t Hp) as [E Hy].
  split; [exact (extends_holds _ _ purchases _ E Hp)|].
  split; [intros l o; apply (extends_holds _ _ l o E)|].
  unfold yields in Hy.
  destruct (Script.outcome_of q t) as [v|e].
  - destruct Hy as (r & -> & Hr & Hlen).
    split; [assumption|]. split; [apply holds_length in Hp; lia|].
    exists v. split; [reflexivity | assumption].
  - now rewrite Hy.
Qed.

Lemma queries_do_not_mutate_witness :
  holds (fst (Script.run_query Script.NetWithoutCountryOutliersAssign 0%nat
                [ODataFrame Purchases.fixture]))
    0%nat (ODataFrame Purchases.fixture)
  /\ (forall l o, holds [ODataFrame Purchases.fixture] l o ->
        holds (fst (Script.run_query Script.NetWithoutCountryOutliersAssign
                      0%nat [ODataFrame Purchases.fixture])) l o)
  /\ match snd (Script.run_query Script.NetWithoutCountryOutliersAssign 0%nat
                  [ODataFrame Purchases.fixture]) with
     | Returned r =>
         (List.length [ODataFrame Purchases.fixture] <= r)%nat
         /\ r <> 0%nat
         /\ exists v,
              Script.outcome_of Script.NetWithoutCountryOutliersAssign
                Purchases.fixture = Returned v
              /\ holds (fst (Script.run_query
                               Script.NetWithoutCountryOutliersAssign 0%nat
                               [ODataFrame Purchases.fixture])) r v
     | Raised e =>
         Script.outcome_of Script.NetWithoutCountryOutliersAssign
           Purchases.fixture = Raised e
     end.
Proof.
  apply (queries_do_not_mutate Script.NetWithoutCountryOutliersAssign
           [ODataFrame Purchases.fixture] 0%nat Purchases.fixture).
  reflexivity.
Defined.

(** What an expression gives can depend on what was evaluated before it:
    [purchases["country_median"]] raises [KeyError] on the loaded table and
    returns a column after the in-place counterpart of lines 51-53. *)
Lemma in_place_assignment_changes_results (t : DataFrame) :
  snd (getitem 0%nat "country_median" [ODataFrame t])
  = Raised (KeyError "country_median")
  /\ exists r,
       snd (getitem 0%nat "country_median"
              (fst (Script.set_country_median_in_place 0%nat [ODataFrame t])))
       = Returned r.
Proof.
  split; [reflexivity|].
  pose proof (in_place_assignment_mutates [ODataFrame t] 0%nat t eq_refl) as H.
  unfold getitem, bind, load.
  rewrite (H : nth_error _ 0%nat = Some _). simpl. eauto.
Qed.

(** C8: every query of the script is deterministic.  Two evaluations of
    the same query on equal purchases tables, from any two heaps and with
    the tables at any two locations, end the same way: both return an
    object and the two objects hold the same value, or both raise the same
    exception.  In particular a query evaluated a second time, on the heap
    that its first evaluation left, ends as it did the first time. *)
Theorem queries_deterministic (q : Script.query_expr) (h h' : heap)
    (p p' : loc) (t : DataFrame) :
  holds h p (ODataFrame t) ->
  holds h' p' (ODataFrame t) ->
  same_result (Script.run_query q p h) (Script.run_query q p' h')
  /\ same_result (Script.run_query q p h)
       (Script.run_query q p (fst (Script.run_query q p h))).
Proof.
  intros Hp Hp'.
  assert (Hsame : forall h1 p1 h2 p2,
            holds h1 p1 (ODataFrame t) -> holds h2 p2 (ODataFrame t) ->
            same_result (Script.run_query q p1 h1) (Script.run_query q p2 h2)).
  { intros h1 p1 h2 p2 H1 H2.
    destruct (run_query_spec q h1 p1 t H1) as [_ Hy1].
    destruct (run_query_spec q h2 p2 t H2) as [_ Hy2].
    unfold yields, same_result in *.
    destruct (Script.outcome_of q t) as [v|e].
    - destruct Hy1 as (r1 & -> & Hr1 & _). destruct Hy2 as (r2 & -> & Hr2 & _).
      exists v. now split.
    - now rewrite Hy1, Hy2. }
  split; [now apply Hsame|].
  apply Hsame; [assumption|].
  destruct (run_query_spec q h p t Hp) as [E _].
  exact (extends_holds _ _ p _ E Hp).
Qed.

Lemma queries_deterministic_witness :
  same_result
    (Script.run_query Script.NetWithoutCountryOutliersAssign 0%nat
       [ODataFrame Purchases.fixture])
    (Script.run_query Script.NetWithoutCountryOutliersAssign 1%nat
       [ONumber 0; ODataFrame Purchases.fixture])
  /\ same_result
       (Script.run_query Script.NetWithoutCountryOutliersAssign 0%nat
          [ODataFrame Purchases.fixture])
       (Script.run_query Script.NetWithoutCountryOutliersAssign 0%nat
          (fst (Script.run_query Script.NetWithoutCountryOutliersAssign 0%nat
                  [ODataFrame Purchases.fixture]))).
Proof.
  apply (queries_deterministic Script.NetWithoutCountryOutliersAssign
           [ODataFrame Purchases.fixture]
           [ONumber 0; ODataFrame Purchases.fixture] 0%nat 1%nat
           Purchases.fixture); reflexivity.
Defined.



(** *** The whole script *)

(** The queries of the script, one after the other: they stop at the
    first one that raises. *)
Lemma run_queries_spec qs h p t :
  holds h p (ODataFrame t) ->
  runs (Script.run_queries qs p) h
    (fun h' o =>
       match o with
       | Returned rs =>
           Forall2 (fun q r => exists v, Script.outcome_of q t = Returned v
                                         /\ holds h' r v) qs rs
       | Raised e => exists q, In q qs /\ Script.outcome_of q t = Raised e
       end).
Proof.
  revert h. induction qs as [|q qs IH]; intros h Hp; simpl.
  - split; [apply extends_refl | constructor].
  - eapply runs_bind; [apply (run_query_spec q h p t Hp)| |].
    + intros h1 r E1 Hy. unfold yields in Hy.
      destruct (Script.outcome_of q t) as [v|e] eqn:Eq; [|discriminate].
      destruct Hy as (r' & Er & Hr & _). injection Er as <-.
      eapply runs_bind; [apply IH, (extends_holds h h1 p _ E1 Hp)| |].
      * intros h2 rs E2 Hrs. split; [apply extends_refl|]. simpl.
        constructor; [|assumption].
        exists v. split; [exact Eq|].
        exact (extends_holds h1 h2 r _ E2 Hr).
      * intros h2 e E2 (q' & Hq' & He). exists q'. split; [now right | assumption].
    + intros h1 e E1 Hy. unfold yields in Hy.
      destruct (Script.outcome_of q t) as [v|e'] eqn:Eq.
      * destruct Hy as (r' & Er & _). discriminate.
      * injection Hy as <-. exists q. split; [now left | assumption].
Qed.

End ScriptFacts.
(* ================================================================== *)
(** ** Further facts about the queries *)

Module QueryFacts.
Import Pandas Purchases PandasFacts PurchasesFacts ReferenceFacts.

(** *** The countries of a result *)

Lemma net_by_country_keys {X} (df : frame X) :
  map fst (records (net_by_country df)) = group_keys df.
Proof.
  rewrite net_by_country_cases.
  destruct (group_keys df) as [|k ks]; [reflexivity|].
  unfold records, t_records. rewrite map_map. simpl. now rewrite map_id.
Qed.

(** The countries of a query that ends in
    [.apply(net_sum).reset_index().rename(...)], or the exception. *)
Lemma net_by_country_countries {X} (df : frame X) :
  outcome_map (fun tbl => map fst (t_records tbl)) (net_by_country df)
  = match group_keys df with
    | [] => Raised cannot_insert_country
    | ks => Returned ks
    end.
Proof.
  rewrite net_by_country_cases.
  destruct (group_keys df) as [|k ks]; [reflexivity|].
  unfold outcome_map, t_records. rewrite map_map. simpl. now rewrite map_id.
Qed.

Lemma amount_sum_keys {X} (df : frame X) :
  map fst (s_items (groupby_amount_sum df)) = group_keys df.
Proof.
  unfold groupby_amount_sum, groupby. simpl. rewrite !map_map. simpl.
  apply map_id.
Qed.

Lemma agg_keys {X} (out : string) (df : frame X) :
  map fst (t_records (frame_reset_index (groupby_agg_amount_sum out df)))
  = group_keys df.
Proof.
  unfold groupby_agg_amount_sum, groupby, frame_reset_index. simpl.
  rewrite !map_map. simpl. apply map_id.
Qed.

Lemma Forall2_map_same {A B C} (R : B -> C -> Prop) (f : A -> B) (g : A -> C)
    (l : list A) :
  (forall x, In x l -> R (f x) (g x)) -> Forall2 R (map f l) (map g l).
Proof.
  induction l as [|a l IH]; simpl; intros H; constructor.
  - apply H. now left.
  - apply IH. intros x Hx. apply H. now right.
Qed.

(** X1: the countries of every group-by result of the script come in
    strictly increasing order, hence without repetition. *)
Theorem result_countries_increasing (purchases : DataFrame) :
  StronglySorted key_lt (map fst (s_items (amount_by_country purchases)))
  /\ StronglySorted key_lt (map fst (t_records (total_by_country purchases)))
  /\ StronglySorted key_lt (map fst (records (net_total_by_country purchases)))
  /\ StronglySorted key_lt (map fst (records (net_without_outliers purchases)))
  /\ StronglySorted key_lt
       (map fst (records (net_without_country_outliers purchases)))
  /\ StronglySorted key_lt
       (map fst (records (net_without_country_outliers_assign purchases))).
Proof.
  unfold amount_by_country, total_by_country, net_total_by_country,
    net_without_outliers, net_without_country_outliers,
    net_without_country_outliers_assign.
  rewrite amount_sum_keys, agg_keys, !net_by_country_keys.
  repeat split; apply group_keys_sorted.
Qed.

(** X2: a country is listed by the group-by sum (lines 10-13), and by the
    net totals (lines 22-27), exactly when some row of the table has it. *)
Theorem result_countries_are_those_present (purchases : DataFrame) (c : string) :
  (In c (map fst (s_items (amount_by_country purchases)))
   <-> exists r, In r purchases /\ country r = Some c)
  /\ (In c (map fst (records (net_total_by_country purchases)))
      <-> exists r, In r purchases /\ country r = Some c).
Proof.
  unfold amount_by_country, net_total_by_country.
  rewrite amount_sum_keys, net_by_country_keys.
  split; apply group_keys_In.
Qed.

(** *** The countries and the order of the rows *)

Lemma group_keys_perm {X} (a b : frame X) :
  Permutation a b -> group_keys a = group_keys b.
Proof.
  intros H. apply sorted_unique; try apply group_keys_sorted.
  intros k. rewrite !group_keys_In. split; intros (r & Hr & Hc); exists r.
  - split; [now apply (Permutation_in r H) | assumption].
  - split; [now apply (Permutation_in r (Permutation_sym H)) | assumption].
Qed.

(** *** What the outlier filters can and cannot do *)

Lemma getitem_mask_incl {X} (df : frame X) (mask : list bool) :
  incl (getitem_mask df mask) df.
Proof.
  unfold getitem_mask. intros r Hr. apply in_map_iff in Hr.
  destruct Hr as ([r' b] & <- & Hin). apply filter_In in Hin.
  destruct Hin as [Hin _]. now apply in_combine_l in Hin.
Qed.

Lemma group_keys_incl {X Y} (a : frame X) (b : frame Y) :
  (forall r, In r a -> exists r', In r' b /\ country r' = country r) ->
  incl (group_keys a) (group_keys b).
Proof.
  intros H k Hk. apply group_keys_In in Hk. destruct Hk as (r & Hr & Hc).
  destruct (H r Hr) as (r' & Hr' & E). apply group_keys_In.
  exists r'. split; [assumption | congruence].
Qed.

(** X6: the outlier filters only remove.  Every row kept by the global
    filter (line 31), by the nested-apply filter (lines 39-42) or by the
    assign-then-query filter (lines 50-54) is a row of the table, and every
    country in the result of an outlier query (lines 30-36, 39-47, 50-59)
    is a country of the unfiltered net totals (lines 22-27). *)
Theorem outlier_queries_only_remove (purchases : DataFrame) :
  incl (query_amount_le_median purchases) purchases
  /\ incl (nested_apply_rows purchases) purchases
  /\ incl (map forget (assign_query_rows purchases)) purchases
  /\ incl (map fst (records (net_without_outliers purchases)))
       (map fst (records (net_total_by_country purchases)))
  /\ incl (map fst (records (net_without_country_outliers purchases)))
       (map fst (records (net_total_by_country purchases)))
  /\ incl (map fst (records (net_without_country_outliers_assign purchases)))
       (map fst (records (net_total_by_country purchases))).
Proof.
  assert (H1 : incl (query_amount_le_median purchases) purchases)
    by apply getitem_mask_incl.
  assert (H2 : incl (filter (within_country_median purchases) purchases)
                 purchases) by apply incl_filter.
  split; [exact H1|]. split; [|split].
  - intros r Hr.
    apply (Permutation_in r (nested_apply_rows_perm purchases)) in Hr.
    now apply H2.
  - now rewrite assign_query_rows_forget.
  - rewrite nested_apply_totals, assign_query_totals.
    unfold net_without_outliers, net_total_by_country.
    rewrite !net_by_country_keys.
    repeat split; apply group_keys_incl; intros r Hr; exists r; auto.
Qed.

(** X7: on a table whose rows all have the same country, the global
    outlier query (lines 30-36) and the per-country query (lines 39-47)
    give the same result. *)
Theorem single_country_queries_agree (purchases : DataFrame) (c : string) :
  (forall r, In r purchases -> country r = Some c) ->
  net_without_outliers purchases = net_without_country_outliers purchases.
Proof.
  intros H. rewrite nested_apply_totals. unfold net_without_outliers.
  f_equal. rewrite query_amount_le_median_filter.
  apply filter_ext_in. intros r Hr.
  unfold within_country_median, group_threshold. rewrite (H r Hr).
  rewrite filter_all_true; [reflexivity|].
  intros r' Hr'. apply in_group_country. now apply H.
Qed.

Lemma single_country_queries_agree_witness :
  net_without_outliers two_pass_fixture
  = net_without_country_outliers two_pass_fixture.
Proof.
  apply (single_country_queries_agree two_pass_fixture "US").
  intros r Hr. simpl in Hr.
  destruct Hr as [<-|[<-|[<-|[<-|[<-|[]]]]]]; reflexivity.
Defined.



(** *** The median and the threshold *)

(** The median of a column is at least any lower bound of the column. *)
Lemma median_lower (s : list Q) (m lo : Q) :
  median s = Some m -> (forall x, In x s -> lo <= x) -> lo <= m.
Proof.
  unfold median. intros Hm Hlo.
  set (v := sort_values s) in *.
  assert (Hnth : forall i, (i < List.length v)%nat -> lo <= nth i v 0).
  { intros i Hi. apply Hlo, sort_values_In, nth_In, Hi. }
  destruct (List.length v) as [|n] eqn:Hlen; [discriminate|].
  assert (H2 : (S n / 2 < S n)%nat) by (apply Nat.div_lt; lia).
  destruct (Nat.odd (S n)); injection Hm as <-.
  - now apply Hnth.
  - pose proof (Hnth (S n / 2)%nat H2) as Ha.
    assert (H3 : (S n / 2 - 1 < S n)%nat)
      by (apply Nat.le_lt_trans with (S n / 2)%nat;
          [apply Nat.le_sub_l | exact H2]).
    pose proof (Hnth (S n / 2 - 1)%nat H3) as Hb.
    unfold Qdiv. change (/ 2) with (1 # 2).
    change (fst (Nat.divmod n 1 0 0)) with (S n / 2)%nat. lra.
Qed.

Lemma column_min (s : list Q) :
  s <> [] -> exists lo, In lo s /\ forall x, In x s -> lo <= x.
Proof.
  induction s as [|a s IH]; [contradiction|]. intros _.
  destruct s as [|b s].
  - exists a. split; [now left|]. intros x [<-|[]]. apply Qle_refl.
  - destruct IH as (lo & Hin & Hlo); [discriminate|].
    destruct (Qlt_le_dec a lo) as [Hlt|Hle].
    + exists a. split; [now left|]. intros x [<-|Hx]; [apply Qle_refl|].
      apply Qle_trans with lo; [now apply Qlt_le_weak | now apply Hlo].
    + exists lo. split; [now right|]. intros x [<-|Hx]; [assumption|].
      now apply Hlo.
Qed.

(** With amounts that are not negative, the smallest amount of a frame is
    within 10 times the median. *)
Lemma smallest_within_threshold {X} (df : frame X) :
  df <> [] ->
  (forall r, In r df -> 0 <= amount r) ->
  exists r, In r df
    /\ le_scalar (amount r) (mul_scalar (median (getitem_amount df)) 10) = true.
Proof.
  intros Hne Hpos.
  assert (Hs : getitem_amount df <> []).
  { unfold getitem_amount. intros E. apply map_eq_nil in E. contradiction. }
  destruct (column_min _ Hs) as (lo & Hin & Hlo).
  destruct (median_nonempty _ Hs) as (m & Hm).
  unfold getitem_amount in Hin. apply in_map_iff in Hin.
  destruct Hin as (r & <- & Hr). exists r. split; [assumption|].
  rewrite Hm. simpl. apply Qle_bool_iff.
  pose proof (median_lower _ m (amount r) Hm Hlo).
  pose proof (Hpos r Hr). lra.
Qed.

(** X9: when no amount is negative, the global outlier filter (line 31)
    keeps at least one row of a table that has rows. *)
Theorem global_filter_keeps_a_row (purchases : DataFrame) :
  purchases <> [] ->
  (forall r, In r purchases -> 0 <= amount r) ->
  query_amount_le_median purchases <> [].
Proof.
  intros Hne Hpos E.
  destruct (smallest_within_threshold purchases Hne Hpos) as (r & Hr & Hk).
  assert (Hin : In r (query_amount_le_median purchases)).
  { rewrite query_amount_le_median_filter. apply filter_In. now split. }
  rewrite E in Hin. contradiction.
Qed.

Lemma global_filter_keeps_a_row_witness :
  query_amount_le_median two_pass_fixture <> [].
Proof.
  apply (global_filter_keeps_a_row two_pass_fixture).
  - discriminate.
  - intros r Hr. simpl in Hr.
    destruct Hr as [<-|[<-|[<-|[<-|[<-|[]]]]]]; simpl; lra.
Defined.

(** X10: when no amount is negative, the per-country outlier queries
    (lines 39-47 and 50-59) drop no country: they list the same countries,
    in the same order, as the plain net totals of lines 22-27. *)
Theorem per_country_filter_keeps_every_country (purchases : DataFrame) :
  (forall r, In r purchases -> 0 <= amount r) ->
  map fst (records (net_without_country_outliers purchases))
  = map fst (records (net_total_by_country purchases))
  /\ map fst (records (net_without_country_outliers_assign purchases))
     = map fst (records (net_total_by_country purchases)).
Proof.
  intros Hpos.
  rewrite nested_apply_totals, assign_query_totals.
  unfold net_total_by_country. rewrite !net_by_country_keys.
  assert (E : group_keys (filter (within_country_median purchases) purchases)
              = group_keys purchases).
  { apply sorted_unique; try apply group_keys_sorted.
    intros k. split; [apply group_keys_filter|].
    intros Hk. apply group_nonempty in Hk.
    destruct (smallest_within_threshold (filter (in_group k) purchases) Hk)
      as (r & Hr & Hw).
    { intros r Hr. apply Hpos. now apply group_rows in Hr. }
    apply group_rows in Hr. destruct Hr as [Hr Hc].
    apply group_keys_In. exists r. split; [|assumption].
    apply filter_In. split; [assumption|].
    unfold within_country_median, group_threshold. now rewrite Hc. }
  now rewrite E.
Qed.

Lemma per_country_filter_keeps_every_country_witness :
  map fst (records (net_without_country_outliers fixture))
  = map fst (records (net_total_by_country fixture))
  /\ map fst (records (net_without_country_outliers_assign fixture))
     = map fst (records (net_total_by_country fixture)).
Proof.
  apply (per_country_filter_keeps_every_country fixture).
  intros r Hr. simpl in Hr. destruct Hr as [<-|[<-|[]]]; simpl; lra.
Defined.

(** X11: a country whose only row has a negative amount is dropped by the
    per-country outlier queries (lines 39-47 and 50-59): the median of the
    group is that amount, and a negative amount is above 10 times itself. *)
Theorem lone_negative_row_drops_its_country (purchases : DataFrame)
    (c : string) (r : row unit) :
  filter (in_group c) purchases = [r] ->
  amount r < 0 ->
  ~ In c (map fst (records (net_without_country_outliers purchases)))
  /\ ~ In c (map fst (records (net_without_country_outliers_assign purchases))).
Proof.
  intros Hg Hneg.
  rewrite nested_apply_totals, assign_query_totals, !net_by_country_keys.
  assert (H : ~ In c (group_keys
                        (filter (within_country_median purchases) purchases))).
  { intros Hk. apply group_keys_In in Hk. destruct Hk as (r' & Hr' & Hc).
    apply filter_In in Hr'. destruct Hr' as [Hr' Hw].
    assert (Hin : In r' (filter (in_group c) purchases)).
    { apply filter_In. split; [assumption | now apply in_group_country]. }
    rewrite Hg in Hin. destruct Hin as [<-|[]].
    unfold within_country_median, group_threshold in Hw.
    rewrite Hc, Hg in Hw. simpl in Hw.
    apply Qle_bool_iff in Hw. lra. }
  now split.
Qed.

Lemma lone_negative_row_drops_its_country_witness :
  ~ In "DE"%string
      (map fst (records (net_without_country_outliers
                             (mkRow (Some "DE"%string) (-3) 0 tt :: fixture))))
  /\ ~ In "DE"%string
        (map fst (records (net_without_country_outliers_assign
                               (mkRow (Some "DE"%string) (-3) 0 tt :: fixture)))).
Proof.
  apply (lone_negative_row_drops_its_country
           (mkRow (Some "DE"%string) (-3) 0 tt :: fixture) "DE"
           (mkRow (Some "DE"%string) (-3) 0 tt)).
  - reflexivity.
  - simpl. lra.
Defined.

(** *** The global outlier query, in full *)


(** *** The assigned column *)

(** X13: the column that line 52 computes has one value per row of the
    table: the median of [amount] over the rows of the row's country, and
    NaN exactly for the rows without country. *)
Theorem transform_median_column (purchases : DataFrame) :
  List.length (groupby_amount_transform_median purchases)
  = List.length purchases
  /\ Forall2
       (fun r m =>
          m = match country r with
              | Some c => Spec.country_median purchases c
              | None => None
              end
          /\ (m = None <-> country r = None))
       purchases (groupby_amount_transform_median purchases).
Proof.
  split; [apply length_map|].
  unfold groupby_amount_transform_median.
  rewrite <- (map_id purchases) at 1.
  apply Forall2_map_same. intros r Hr.
  destruct (country r) as [c|] eqn:Hc; [|now split].
  rewrite (get_group_groupby purchases r c Hr Hc).
  split; [reflexivity|].
  split; [|discriminate]. intros Hm. exfalso.
  destruct (median_nonempty (getitem_amount (filter (in_group c) purchases)))
    as (m & Hm').
  - unfold getitem_amount. intros E. apply map_eq_nil in E.
    assert (Hin : In r (filter (in_group c) purchases)).
    { apply filter_In. split; [assumption | now apply in_group_country]. }
    rewrite E in Hin. contradiction.
  - congruence.
Qed.

(** X14: every row that lines 50-54 keep has a country, carries in
    [country_median] the median of [amount] over the rows of that country
    in the table, and has an amount of at most 10 times it. *)
Theorem assigned_rows_carry_their_median (purchases : DataFrame)
    (r : row (option Q)) :
  In r (assign_query_rows purchases) ->
  exists c m,
    country r = Some c
    /\ added r = Some m
    /\ Spec.country_median purchases c = Some m
    /\ amount r <= m * 10.
Proof.
  unfold assign_query_rows, groupby_amount_transform_median.
  rewrite assign_country_median_map, query_amount_le_country_median_filter.
  intros Hin. apply filter_In in Hin. destruct Hin as [Hin Hle].
  apply in_map_iff in Hin. destruct Hin as (r0 & <- & Hr0).
  simpl in *. destruct (country r0) as [c|] eqn:Hc; [|discriminate].
  rewrite (get_group_groupby purchases r0 c Hr0 Hc) in *.
  destruct (median (getitem_amount (filter (in_group c) purchases)))
    as [m|] eqn:Hm; [|discriminate].
  exists c, m. split; [reflexivity|]. split; [reflexivity|].
  split; [exact Hm|]. simpl in Hle. now apply Qle_bool_iff.
Qed.

Lemma assigned_rows_carry_their_median_witness :
  exists c m,
    country (mkRow (Some "US"%string) 100 10 (Some (150 # 2))) = Some c
    /\ added (mkRow (Some "US"%string) 100 10 (Some (150 # 2))) = Some m
    /\ Spec.country_median fixture c = Some m
    /\ amount (mkRow (Some "US"%string) 100 10 (Some (150 # 2))) <= m * 10.
Proof.
  apply (assigned_rows_carry_their_median fixture).
  vm_compute. left. reflexivity.
Defined.

(** *** The outlier queries and the order of the rows *)

(** Two sorted lists with the same elements are equal, when the order is
    antisymmetric on them. *)
Lemma sorted_perm_eq {A} (R : A -> A -> Prop) (a b : list A) :
  (forall x y, In x a -> In y a -> R x y -> R y x -> x = y) ->
  StronglySorted R a -> StronglySorted R b -> Permutation a b -> a = b.
Proof.
  intros Hanti Ha. revert b.
  induction Ha as [|x a Hsa IH Hxa]; intros b Hb Hp.
  - apply Permutation_nil in Hp. now subst.
  - destruct Hb as [|y b Hsb Hyb].
    + apply Permutation_sym, Permutation_nil in Hp. discriminate.
    + rewrite Forall_forall in Hxa, Hyb.
      assert (x = y) as <-.
      { assert (Hx : In x (y :: b)) by (apply (Permutation_in x Hp); now left).
        assert (Hy : In y (x :: a))
          by (apply (Permutation_in y (Permutation_sym Hp)); now left).
        destruct Hx as [E|Hx]; [now symmetry|].
        destruct Hy as [E|Hy]; [assumption|].
        apply Hanti; [now left | now right | now apply Hxa | now apply Hyb]. }
      f_equal. apply IH; [|assumption|].
      * intros u v Hu Hv. apply Hanti; now right.
      * now apply Permutation_cons_inv in Hp.
Qed.

Lemma sorted_map_Qred (l : list Q) :
  StronglySorted Qle l -> StronglySorted Qle (map Qred l).
Proof.
  induction 1 as [|x l Hs IH Hall]; simpl; constructor; [assumption|].
  rewrite Forall_forall in *. intros y Hy. apply in_map_iff in Hy.
  destruct Hy as (z & <- & Hz). rewrite !Qred_correct. now apply Hall.
Qed.

(** Sorting two columns with the same values gives the same values at the
    same places. *)
Lemma sort_values_perm_Qred (s s' : list Q) :
  Permutation s s' ->
  map Qred (sort_values s) = map Qred (sort_values s').
Proof.
  intros Hp. apply (sorted_perm_eq Qle).
  - intros x y Hx Hy Hxy Hyx.
    apply in_map_iff in Hx. destruct Hx as (x0 & <- & _).
    apply in_map_iff in Hy. destruct Hy as (y0 & <- & _).
    apply Qred_complete, Qle_antisym; now apply Qred_le.
  - apply sorted_map_Qred, sort_values_sorted.
  - apply sorted_map_Qred, sort_values_sorted.
  - apply Permutation_map.
    rewrite (sort_values_perm s), (sort_values_perm s'). exact Hp.
Qed.

Lemma nth_Qred_eq (a b : list Q) (i : nat) :
  map Qred a = map Qred b -> nth i a 0 == nth i b 0.
Proof.
  intros E.
  rewrite <- (Qred_correct (nth i a 0)), <- (Qred_correct (nth i b 0)).
  rewrite <- (map_nth Qred a 0 i), <- (map_nth Qred b 0 i), E. reflexivity.
Qed.

(** The comparison with the threshold of a column only depends on the
    values of the column. *)
Lemma threshold_perm (s s' : list Q) (a : Q) :
  Permutation s s' ->
  le_scalar a (mul_scalar (median s) 10)
  = le_scalar a (mul_scalar (median s') 10).
Proof.
  intros Hp. pose proof (sort_values_perm_Qred s s' Hp) as E.
  assert (Hlen : List.length (sort_values s) = List.length (sort_values s')).
  { rewrite <- (length_map Qred (sort_values s)), E. apply length_map. }
  unfold median. rewrite <- Hlen.
  destruct (List.length (sort_values s)) as [|n]; [reflexivity|].
  set (k := (S n / 2)%nat). set (j := (k - 1)%nat).
  pose proof (nth_Qred_eq _ _ k E) as Hk.
  pose proof (nth_Qred_eq _ _ j E) as Hj.
  assert (Hb : forall x y, x == y ->
                 Qle_bool a (x * 10) = Qle_bool a (y * 10)).
  { intros x y Hxy.
    destruct (Qle_bool a (x * 10)) eqn:E1, (Qle_bool a (y * 10)) eqn:E2;
      try reflexivity; exfalso.
    - apply Qle_bool_iff in E1. rewrite Hxy in E1.
      apply Qle_bool_iff in E1. congruence.
    - apply Qle_bool_iff in E2. rewrite <- Hxy in E2.
      apply Qle_bool_iff in E2. congruence. }
  destruct (Nat.odd (S n)); cbn [le_scalar mul_scalar option_map]; apply Hb.
  - exact Hk.
  - now rewrite Hk, Hj.
Qed.

Lemma filter_perm_ext {A} (p q : A -> bool) (a b : list A) :
  (forall x, In x a -> p x = q x) -> Permutation a b ->
  Permutation (filter p a) (filter q b).
Proof.
  intros E H. rewrite (filter_ext_in p q a E). now apply filter_perm.
Qed.

(** X17: the rows that the three outlier filters keep (lines 31, 39-42,
    50-54) do not depend on the order of the rows of the table: on two
    tables with the same rows each filter keeps the same rows, and each of
    the three queries (lines 30-36, 39-47, 50-59) lists the same countries
    in the same order, or raises on both tables. *)
Theorem outlier_queries_independent_of_row_order (t t' : DataFrame) :
  Permutation t t' ->
  Permutation (query_amount_le_median t) (query_amount_le_median t')
  /\ Permutation (nested_apply_rows t) (nested_apply_rows t')
  /\ Permutation (map forget (assign_query_rows t))
       (map forget (assign_query_rows t'))
  /\ outcome_map (fun tbl => map fst (t_records tbl)) (net_without_outliers t)
     = outcome_map (fun tbl => map fst (t_records tbl)) (net_without_outliers t')
  /\ outcome_map (fun tbl => map fst (t_records tbl))
       (net_without_country_outliers t)
     = outcome_map (fun tbl => map fst (t_records tbl))
         (net_without_country_outliers t')
  /\ outcome_map (fun tbl => map fst (t_records tbl))
       (net_without_country_outliers_assign t)
     = outcome_map (fun tbl => map fst (t_records tbl))
         (net_without_country_outliers_assign t').
Proof.
  intros H.
  assert (Hw : Permutation (filter (within_country_median t) t)
                 (filter (within_country_median t') t')).
  { apply filter_perm_ext; [|assumption]. intros r _.
    unfold within_country_median, group_threshold.
    destruct (country r) as [c|]; [|reflexivity].
    apply threshold_perm. unfold getitem_amount.
    now apply Permutation_map, filter_perm. }
  assert (Hg : Permutation (query_amount_le_median t)
                 (query_amount_le_median t')).
  { rewrite !query_amount_le_median_filter.
    apply filter_perm_ext; [|assumption]. intros r _.
    apply threshold_perm. unfold getitem_amount. now apply Permutation_map. }
  split; [exact Hg|]. split; [|split; [|split; [|split]]].
  - rewrite (nested_apply_rows_perm t), (nested_apply_rows_perm t'). exact Hw.
  - now rewrite !assign_query_rows_forget.
  - unfold net_without_outliers. rewrite !net_by_country_countries.
    now rewrite (group_keys_perm _ _ Hg).
  - rewrite !nested_apply_totals, !net_by_country_countries.
    now rewrite (group_keys_perm _ _ Hw).
  - rewrite !assign_query_totals, !net_by_country_countries.
    now rewrite (group_keys_perm _ _ Hw).
Qed.

Lemma outlier_queries_independent_of_row_order_witness :
  Permutation (query_amount_le_median fixture)
    (query_amount_le_median (rev fixture))
  /\ Permutation (nested_apply_rows fixture) (nested_apply_rows (rev fixture))
  /\ Permutation (map forget (assign_query_rows fixture))
       (map forget (assign_query_rows (rev fixture)))
  /\ outcome_map (fun tbl => map fst (t_records tbl))
       (net_without_outliers fixture)
     = outcome_map (fun tbl => map fst (t_records tbl))
         (net_without_outliers (rev fixture))
  /\ outcome_map (fun tbl => map fst (t_records tbl))
       (net_without_country_outliers fixture)
     = outcome_map (fun tbl => map fst (t_records tbl))
         (net_without_country_outliers (rev fixture))
  /\ outcome_map (fun tbl => map fst (t_records tbl))
       (net_without_country_outliers_assign fixture)
     = outcome_map (fun tbl => map fst (t_records tbl))
         (net_without_country_outliers_assign (rev fixture)).
Proof.
  apply (outlier_queries_independent_of_row_order fixture (rev fixture)).
  simpl. apply perm_swap.
Defined.

End QueryFacts.

(* ================================================================== *)
(** ** The script as a whole *)

Module RunFacts.
Import Pandas Purchases Objects PandasFacts PurchasesFacts ObjectFacts
  ScriptFacts QueryFacts.

Lemma main_run_queries (csv : DataFrame) :
  Script.main csv []
  = match Script.run_queries Script.queries 0%nat (Script.loaded csv) with
    | (h, Returned rs) => (h, Returned (0%nat, rs))
    | (h, Raised e) => (h, Raised e)
    end.
Proof. reflexivity. Qed.

(** The only exception of the last stage of a net-total query. *)
Lemma net_by_country_raised {X} (df : frame X) (e : error) :
  net_by_country df = Raised e ->
  e = cannot_insert_country /\ forall r, In r df -> country r = None.
Proof.
  rewrite net_by_country_cases.
  destruct (group_keys df) as [|k ks] eqn:E; [|discriminate].
  intros [= <-]. split; [reflexivity|]. intros r Hr.
  destruct (country r) as [c|] eqn:Hc; [|reflexivity].
  assert (Hin : In c (group_keys df)) by (apply group_keys_In; eauto).
  rewrite E in Hin. contradiction.
Qed.

Lemma net_by_country_returned {X} (df : frame X) (r : row X) (c : string) :
  In r df -> country r = Some c -> exists tbl, net_by_country df = Returned tbl.
Proof.
  intros Hr Hc. destruct (net_by_country df) as [tbl|e] eqn:E; [eauto|].
  apply net_by_country_raised in E. destruct E as [_ E].
  rewrite (E r Hr) in Hc. discriminate.
Qed.


(** The script, from the loaded table on. *)
Lemma main_spec (csv : DataFrame) :
  holds (fst (Script.main csv [])) 0%nat (ODataFrame csv)
  /\ match snd (Script.main csv []) with
     | Returned (p, rs) =>
         p = 0%nat
         /\ Forall2
              (fun q r =>
                 exists v, Script.outcome_of q csv = Returned v
                           /\ holds (fst (Script.main csv [])) r v)
              Script.queries rs
     | Raised e =>
         exists q, In q Script.queries /\ Script.outcome_of q csv = Raised e
     end.
Proof.
  rewrite main_run_queries.
  destruct (run_queries_spec Script.queries (Script.loaded csv) 0%nat csv eq_refl)
    as [E Hq].
  destruct (Script.run_queries Script.queries 0%nat (Script.loaded csv))
    as [h [rs|e]]; simpl in *.
  - split; [exact (extends_holds _ h 0%nat _ E eq_refl)|]. now split.
  - split; [exact (extends_holds _ h 0%nat _ E eq_refl) | exact Hq].
Qed.


(** When no amount is negative, each group keeps a row within its own
    threshold. *)
Lemma within_country_median_keeps (csv : DataFrame) (r : row unit) (c : string) :
  (forall r, In r csv -> 0 <= amount r) ->
  In r csv -> country r = Some c ->
  exists r', In r' (filter (within_country_median csv) csv)
             /\ country r' = Some c.
Proof.
  intros Hpos Hr Hc.
  assert (Hk : filter (in_group c) csv <> []).
  { apply group_nonempty, group_keys_In. eauto. }
  destruct (smallest_within_threshold (filter (in_group c) csv) Hk)
    as (r' & Hr' & Hw).
  { intros x Hx. apply Hpos. now apply group_rows in Hx. }
  apply group_rows in Hr'. destruct Hr' as [Hr' Hc'].
  exists r'. split; [|assumption].
  apply filter_In. split; [assumption|].
  unfold within_country_median, group_threshold. now rewrite Hc'.
Qed.

(** X18: on a table that has rows, all with a country and none with a
    negative amount, the script (lines 3-59) runs to the end without
    raising and displays seven results. *)
Theorem script_runs_to_the_end (csv : DataFrame) :
  csv <> [] ->
  (forall r, In r csv -> country r <> None) ->
  (forall r, In r csv -> 0 <= amount r) ->
  exists rs,
    snd (Script.main csv []) = Returned (0%nat, rs)
    /\ List.length rs = 7%nat
    /\ Forall2
         (fun q r =>
            exists v, Script.outcome_of q csv = Returned v
                      /\ holds (fst (Script.main csv [])) r v)
         Script.queries rs.
Proof.
  intros Hne Hkey Hpos.
  assert (Hret : forall q, In q Script.queries ->
                   exists v, Script.outcome_of q csv = Returned v).
  { assert (H0 : exists r c, In r csv /\ country r = Some c).
    { destruct csv as [|r csv]; [contradiction|].
      destruct (country r) as [c|] eqn:Hc.
      - exists r, c. split; [now left | assumption].
      - exfalso. apply (Hkey r); [now left | assumption]. }
    destruct H0 as (r0 & c0 & Hr0 & Hc0).
    assert (H4 : exists tbl, net_by_country csv = Returned tbl)
      by exact (net_by_country_returned csv r0 c0 Hr0 Hc0).
    assert (H5 : exists tbl,
               net_by_country (query_amount_le_median csv) = Returned tbl).
    { destruct (smallest_within_threshold csv Hne Hpos) as (r & Hr & Hw).
      destruct (country r) as [c|] eqn:Hc;
        [|exfalso; now apply (Hkey r)].
      apply (net_by_country_returned _ r c); [|assumption].
      rewrite query_amount_le_median_filter. apply filter_In. now split. }
    assert (H6 : exists tbl,
               net_by_country (filter (within_country_median csv) csv)
               = Returned tbl).
    { destruct (within_country_median_keeps csv r0 c0 Hpos Hr0 Hc0)
        as (r & Hr & Hc).
      exact (net_by_country_returned _ r c0 Hr Hc). }
    intros q _. destruct q; simpl; eauto;
      unfold net_total_by_country, net_without_outliers;
      rewrite ?nested_apply_totals, ?assign_query_totals.
    - destruct H4 as (tbl & ->). simpl. eauto.
    - destruct H5 as (tbl & ->). simpl. eauto.
    - destruct H6 as (tbl & ->). simpl. eauto.
    - destruct H6 as (tbl & ->). simpl. eauto. }
  destruct (main_spec csv) as [_ Hm].
  destruct (snd (Script.main csv [])) as [[p rs]|e].
  - destruct Hm as [-> Hrs]. exists rs. split; [reflexivity|].
    split; [symmetry; exact (Forall2_length Hrs) | exact Hrs].
  - destruct Hm as (q & Hq & He). destruct (Hret q Hq) as (v & Hv).
    congruence.
Qed.

Lemma script_runs_to_the_end_witness :
  exists rs,
    snd (Script.main fixture []) = Returned (0%nat, rs)
    /\ List.length rs = 7%nat
    /\ Forall2
         (fun q r =>
            exists v, Script.outcome_of q fixture = Returned v
                      /\ holds (fst (Script.main fixture [])) r v)
         Script.queries rs.
Proof.
  apply (script_runs_to_the_end fixture).
  - discriminate.
  - intros r Hr. simpl in Hr. destruct Hr as [<-|[<-|[]]]; discriminate.
  - intros r Hr. simpl in Hr. destruct Hr as [<-|[<-|[]]]; simpl; lra.
Defined.

End RunFacts.
